(** * Snuba: the condition compiler and the simple query pipeline

    A shallow embedding of
    - [snuba/query/parser/conditions.py]: [parse_conditions] and the builder
      set of [parse_conditions_to_expr];
    - [snuba/pipeline/simple_pipeline.py]: [SimplePipeline].

    Python values are an inductive type, exceptions are values of a result
    type, and the objects a pipeline mutates in place live in an explicit
    store. *)

From Stdlib Require Import ZArith String Ascii List Permutation Sorted Bool Lia.
From stdpp Require Import base decidable option list strings pretty gmap.

Local Open Scope Z_scope.
Local Open Scope string_scope.
Local Open Scope list_scope.
Local Set Warnings "-register-all".

(** ** Python values *)

(** The raw values conditions are made of ([Any] in the source): [None],
    integers, strings, lists and tuples. *)
Inductive PyVal : Type :=
| PyNone
| PyInt (z : Z)
| PyStr (s : string)
| PyList (items : list PyVal)
| PyTuple (items : list PyVal).

(** Python [==] on these values is structural equality. *)
#[global] Instance PyVal_eq_dec : EqDecision PyVal.
Proof.
  unfold EqDecision, Decision. fix IH 1.
  intros a b. decide equality; try solve [ apply (decide (_ = _)) ];
    apply (@list_eq_dec _ IH).
Defined.

(** [bool(v)]: the truth value used by [if not conditions]. *)
Definition truth (v : PyVal) : bool :=
  match v with
  | PyNone => false
  | PyInt z => negb (z =? 0)%Z
  | PyStr s => negb (String.eqb s "")
  | PyList items | PyTuple items => negb (Nat.eqb (length items) 0)
  end.

(** Whether [hash(v)] returns: it does on [None], integers and strings, it
    raises [TypeError] on a list, and on a tuple it hashes every element. *)
Fixpoint hashable (v : PyVal) : bool :=
  match v with
  | PyNone | PyInt _ | PyStr _ => true
  | PyList _ => false
  | PyTuple items => forallb hashable items
  end.

(** ** Exceptions and results *)

Inductive Exception : Type :=
| InvalidConditionException (message : string)
| TypeError
| KeyError
| AssertionError
| AttributeError
| OtherException (name : string).

Inductive result (A : Type) : Type :=
| Ok (a : A)
| Raise (e : Exception).
Arguments Ok {A} a.
Arguments Raise {A} e.

Definition bind {A B} (r : result A) (k : A -> result B) : result B :=
  match r with
  | Ok a => k a
  | Raise e => Raise e
  end.

Notation "'let*' x ':=' r 'in' k" := (bind r (fun x => k))
  (at level 10, x pattern, r at level 100, k at level 200).

(** A comprehension or generator whose body may raise: the elements are
    evaluated from left to right and the first exception stops it. *)
Fixpoint for_each {A B} (f : A -> result B) (xs : list A) : result (list B) :=
  match xs with
  | [] => Ok []
  | x :: xs' =>
      let* y := f x in
      let* ys := for_each f xs' in
      Ok (y :: ys)
  end.

(** [for cond in v]: the elements of a list or tuple, the one-character
    strings of a string; [None] and integers are not iterable. *)
Definition iter (v : PyVal) : result (list PyVal) :=
  match v with
  | PyList items | PyTuple items => Ok items
  | PyStr s => Ok (map (fun c => PyStr (String c EmptyString)) (list_ascii_of_string s))
  | PyNone | PyInt _ => Raise TypeError
  end.

(** [isinstance(v, (list, tuple))]. *)
Definition is_list_or_tuple (v : PyVal) : bool :=
  match v with PyList _ | PyTuple _ => true | _ => false end.

(** [xs < ys] on sequences, given [<] on their elements: the elements at
    the first position where the two differ under [==] decide, and the
    lengths when there is no such position. *)
Fixpoint seq_lt (lt : PyVal -> PyVal -> result bool) (xs ys : list PyVal)
    : result bool :=
  match xs, ys with
  | [], [] => Ok false
  | [], _ :: _ => Ok true
  | _ :: _, [] => Ok false
  | x :: xs', y :: ys' =>
      if bool_decide (x = y) then seq_lt lt xs' ys' else lt x y
  end.

(** [a < b]. Integers compare with integers and strings with strings (by
    code point); a list compares with a list and a tuple with a tuple.
    Every other pair of types raises [TypeError]. *)
Fixpoint py_lt (a b : PyVal) {struct a} : result bool :=
  match a, b with
  | PyInt x, PyInt y => Ok (x <? y)%Z
  | PyStr x, PyStr y => Ok (String.ltb x y)
  | PyList xs, PyList ys => seq_lt py_lt xs ys
  | PyTuple xs, PyTuple ys => seq_lt py_lt xs ys
  | _, _ => Raise TypeError
  end.

(** Comparing the other way round: [b < a] holds when neither [a < b]
    nor [a == b] does, and it raises no more than [a < b] does. *)
Definition flips (a : PyVal) : Prop :=
  forall b r, py_lt a b = Ok r ->
    py_lt b a = Ok (negb r && negb (bool_decide (a = b))).

(** [<] is transitive wherever the outer comparison does not raise. *)
Definition transits (a : PyVal) : Prop :=
  forall b c r, py_lt a b = Ok true -> py_lt b c = Ok true ->
    py_lt a c = Ok r -> r = true.

(** [sorted(items)]: a stable sort that compares with [<] only and raises as
    soon as a comparison does. It is written as an insertion sort; when the
    elements are pairwise comparable every stable comparison sort returns
    this list. *)
Fixpoint insort (x : PyVal) (s : list PyVal) : result (list PyVal) :=
  match s with
  | [] => Ok [x]
  | y :: ys =>
      let* lt := py_lt y x in
      if lt then (let* r := insort x ys in Ok (y :: r)) else Ok (x :: y :: ys)
  end.

Fixpoint sorted (items : list PyVal) : result (list PyVal) :=
  match items with
  | [] => Ok []
  | x :: xs => let* s := sorted xs in insort x s
  end.

(** The same sort without the exceptions: what [sorted] returns when every
    comparison it makes succeeds. *)
Definition ltb (a b : PyVal) : bool :=
  match py_lt a b with
  | Ok true => true
  | _ => false
  end.

Fixpoint insort_pure (x : PyVal) (s : list PyVal) : list PyVal :=
  match s with
  | [] => [x]
  | y :: ys => if ltb y x then y :: insort_pure x ys else x :: y :: ys
  end.

Fixpoint sorted_pure (items : list PyVal) : list PyVal :=
  match items with
  | [] => []
  | x :: xs => insort_pure x (sorted_pure xs)
  end.

(** ** Insertion-ordered dictionaries *)

(** [collections.OrderedDict]: the items in insertion order. A key is
    hashed whenever it is assigned to, which raises when the key is not
    hashable, and keys are then compared with [==]; equal keys have equal
    hashes, so of [hash] only the outcome is kept. Assigning to a key that
    is already present replaces its value where the key stands. *)
Section OrderedDict.
Context {K V : Type} `{EqDecision K}.
Variable hash : K -> result unit.

Definition setitem (d : list (K * V)) (k : K) (v : V) : result (list (K * V)) :=
  let* _ := hash k in
  Ok (if decide (k ∈ d.*1)
      then map (fun kv => if decide (kv.1 = k) then (kv.1, v) else kv) d
      else d ++ [(k, v)]).

(** [OrderedDict(pairs)] on an iterable of pairs, here a generator: the
    elements of [pairs] are the pairs as the generator yields them, each one
    a computation that may raise. A pair is asked for and then inserted
    before the next one is asked for, and the first exception, of a pair or
    of an insertion, ends the construction. *)
Definition OrderedDict (pairs : list (result (K * V))) : result (list (K * V)) :=
  fold_left
    (fun d next => let* d := d in let* kv := next in setitem d kv.1 kv.2)
    pairs (Ok []).

Definition keys (d : list (K * V)) : list K := d.*1.

End OrderedDict.

(** What is left of a list when every element that occurred before is
    removed: the first occurrences, in their order. *)
Fixpoint first_occurrences {K} `{EqDecision K} (ks : list K) : list K :=
  match ks with
  | [] => []
  | k :: ks' =>
      k :: List.filter (fun k' => negb (bool_decide (k' = k))) (first_occurrences ks')
  end.

(** ** The expression tree *)

(** Modelled from the spec: the Expression AST of [snuba.query.expressions]
    (section 3, "Expression AST node"); nodes are compared structurally. *)
Inductive Expression : Type :=
| Literal (alias : option string) (value : PyVal)
| Column (alias : option string) (column_name : string) (table_name : option string)
| FunctionCall (alias : option string) (function_name : string)
    (parameters : list Expression)
| Lambda (alias : option string) (parameters : list string)
    (transformation : Expression)
| Argument (alias : option string) (name : string).

#[global] Instance Expression_eq_dec : EqDecision Expression.
Proof.
  unfold EqDecision, Decision. fix IH 1.
  intros a b. decide equality; try solve [ apply (decide (_ = _)) ].
  apply (@list_eq_dec _ IH).
Defined.

(** Modelled from the spec: the hash of an expression node (section 9:
    the deduplication "requires structural equality and stable hashing of
    expression trees"). A node is hashed through its fields, so hashing it
    hashes every value and every node it holds, and fails when one of the
    values is not hashable. *)
Fixpoint Expression_hashable (e : Expression) : bool :=
  match e with
  | Literal _ value => hashable value
  | Column _ _ _ | Argument _ _ => true
  | FunctionCall _ _ parameters => forallb Expression_hashable parameters
  | Lambda _ _ transformation => Expression_hashable transformation
  end.

Definition Expression_hash (e : Expression) : result unit :=
  if Expression_hashable e then Ok tt else Raise TypeError.

(** Modelled from the spec: [binary_condition] of [snuba.query.conditions]
    ("BinaryCondition: a FunctionCall with exactly 2 arguments"). *)
Definition binary_condition (alias : option string) (function_name : string)
    (lhs rhs : Expression) : Expression :=
  FunctionCall alias function_name [lhs; rhs].

(** The right-nested combination of a non-empty list of expressions:
    [f(e1, f(e2, ... f(e(n-1), en)))], and [e1] itself when it is alone. *)
Fixpoint right_nested (function : string) (first : Expression)
    (rest : list Expression) : Expression :=
  match rest with
  | [] => first
  | second :: rest' =>
      FunctionCall None function [first; right_nested function second rest']
  end.

(** ** The dataset *)

(** Modelled from the spec: a schema column (section 3, "Schema Column"):
    its declared type, scalar or [Array], and its array-join base name. *)
Inductive ColumnType : Type :=
| Scalar (type_name : string)
| Array (inner_type : ColumnType).

Record FlattenedColumn : Type := {
  type : ColumnType;
  base_name : option string
}.

Definition is_Array (t : ColumnType) : bool :=
  match t with Array _ => true | Scalar _ => false end.

(** The two operations of a dataset the compiler calls:
    [process_condition] and the columns of the read schema. *)
Record Dataset : Type := {
  process_condition : PyVal -> result (PyVal * string * PyVal);
  get_columns : gmap string FlattenedColumn
}.

(** ** The condition compiler *)

Section ParseConditions.

(** The target representation and Python's [==], truth value and [hash]
    on it. *)
Context {TExpression : Type} `{EqDecision TExpression}.
Variable bool_of : TExpression -> bool.
Variable hash_of : TExpression -> result unit.

(** [str] (a Python builtin) and [snuba.util.is_condition]. *)
Variable str : PyVal -> string.
Variable is_condition : PyVal -> result bool.

(** The arguments of [parse_conditions]. *)
Variable operand_builder : PyVal -> result TExpression.
Variable and_builder : list TExpression -> result (option TExpression).
Variable or_builder : list TExpression -> result (option TExpression).
Variable unpack_array_condition_builder :
  TExpression -> string -> PyVal -> result TExpression.
Variable simple_condition_builder :
  TExpression -> string -> PyVal -> result TExpression.
Variable dataset : Dataset.
Variable array_join : option string.

(** [hash] on the keys of the top-level dictionary, which are expressions
    or [None]. *)
Definition hash_key (key : option TExpression) : result unit :=
  match key with
  | Some e => hash_of e
  | None => Ok tt
  end.

(** [[s for s in ... if s]] over optional expressions. *)
Definition if_s (s : option TExpression) : option TExpression :=
  match s with
  | Some e => if bool_of e then Some e else None
  | None => None
  end.

(** [op in ("IN", "NOT IN")]. *)
Definition in_IN_NOT_IN (op : string) : bool :=
  String.eqb op "IN" || String.eqb op "NOT IN".

(** The array-unpack test of the leaf case. *)
Definition unpacks_array (lhs lit : PyVal) : bool :=
  match lhs with
  | PyStr name =>
      match get_columns dataset !! name with
      | Some column =>
          is_Array (type column)
          && negb (bool_decide (base_name column = array_join))
          && negb (is_list_or_tuple lit)
      | None => false
      end
  | _ => false
  end.

(** [if op in ("IN", "NOT IN") and isinstance(lit, tuple): lit = tuple(sorted(lit))]. *)
Definition sort_IN_literal (op : string) (lit : PyVal) : result PyVal :=
  match lit with
  | PyTuple items =>
      if in_IN_NOT_IN op
      then (let* s := sorted items in Ok (PyTuple s))
      else Ok lit
  | _ => Ok lit
  end.

(** The branch [elif is_condition(conditions)] of [parse_conditions]: a
    simple condition, which makes no recursive call. *)
Definition parse_simple_condition (conditions : PyVal)
    : result (option TExpression) :=
  let* triple := process_condition dataset conditions in
  let '(lhs, op, lit) := triple in
  let* lit := sort_IN_literal op lit in
  if unpacks_array lhs lit
  then (let* operand := operand_builder lhs in
        let* e := unpack_array_condition_builder operand op lit in
        Ok (Some e))
  else (let* operand := operand_builder lhs in
        let* e := simple_condition_builder operand op lit in
        Ok (Some e)).

(** The body of [parse_conditions]; [self] stands for the recursive calls. *)
Definition parse_conditions_body
    (self : PyVal -> Z -> result (option TExpression))
    (conditions : PyVal) (depth : Z) : result (option TExpression) :=
  if negb (truth conditions) then Ok None
  else if (depth =? 0)%Z then
    let* conds := iter conditions in
    let* sub :=
      OrderedDict hash_key
        (map (fun cond => let* e := self cond (depth + 1)%Z in Ok (e, PyNone))
           conds) in
    and_builder (omap if_s (keys sub))
  else
    let* leaf := is_condition conditions in
    if leaf then parse_simple_condition conditions
    else if (depth =? 1)%Z then
      let* conds := iter conditions in
      let* sub := for_each (fun cond => self cond (depth + 1)%Z) conds in
      or_builder (omap if_s sub)
    else Raise (InvalidConditionException (str conditions)).

(** [parse_conditions] calls itself with [depth + 1] at depths 0 and 1 only,
    so three nested bodies are the whole recursion (see
    [parse_conditions_unfold]). *)
Definition parse_conditions (conditions : PyVal) (depth : Z)
    : result (option TExpression) :=
  parse_conditions_body
    (parse_conditions_body
       (parse_conditions_body (fun _ _ => Raise (OtherException "RecursionError"))))
    conditions depth.

End ParseConditions.

(** ** The expression builder set *)

Section ParseConditionsToExpr.

(** Names this module imports and [src/] does not define: the operator
    tables of [snuba.query.conditions] and [snuba.query.schema], the two
    [BooleanFunctions] names, [str], and the helpers of [snuba.util] and
    [snuba.query.parser.functions]. *)
Variable OPERATOR_TO_FUNCTION : gmap string string.
Variable POSITIVE_OPERATORS : list string.
Variable BooleanFunctions_AND BooleanFunctions_OR : string.
Variable str : PyVal -> string.
Variable is_condition : PyVal -> result bool.
Variable is_function : PyVal -> Z -> result bool.
Variable parse_function_to_expr : PyVal -> result Expression.
Variable QUOTED_LITERAL_RE_match : string -> bool.

(** [val[1:-1]] on a string. *)
Definition strip_ends (val : string) : string :=
  substring 1 (String.length val - 2) val.

Definition operand_builder (val : PyVal) : result Expression :=
  let* function := is_function val 0 in
  if function then parse_function_to_expr val
  else
    match val with
    | PyStr name =>
        if QUOTED_LITERAL_RE_match name
        then Ok (Literal None (PyStr (strip_ends name)))
        else Ok (Column None name None)
    | _ => Raise TypeError
    end.

Fixpoint multi_expression_builder (expressions : list Expression)
    (function : string) : result Expression :=
  match expressions with
  | [] => Raise AssertionError
  | first :: rest =>
      match rest with
      | [] => Ok first
      | _ :: _ =>
          let* combined := multi_expression_builder rest function in
          Ok (binary_condition None function first combined)
      end
  end.

Definition and_builder (expressions : list Expression)
    : result (option Expression) :=
  match expressions with
  | [] => Ok None
  | _ :: _ =>
      let* e := multi_expression_builder expressions BooleanFunctions_AND in
      Ok (Some e)
  end.

Definition or_builder (expressions : list Expression)
    : result (option Expression) :=
  match expressions with
  | [] => Ok None
  | _ :: _ =>
      let* e := multi_expression_builder expressions BooleanFunctions_OR in
      Ok (Some e)
  end.

Definition preprocess_literal (op : string) (literal : PyVal)
    : result Expression :=
  match literal with
  | PyList items | PyTuple items =>
      if in_IN_NOT_IN op
      then Ok (FunctionCall None "tuple" (map (Literal None) items))
      else Raise AssertionError
  | _ =>
      if in_IN_NOT_IN op
      then Raise AssertionError
      else Ok (Literal None literal)
  end.

(** [OPERATOR_TO_FUNCTION[op]]. *)
Definition operator_function (op : string) : result string :=
  match OPERATOR_TO_FUNCTION !! op with
  | Some name => Ok name
  | None => Raise KeyError
  end.

Definition unpack_array_condition_builder (lhs : Expression) (op : string)
    (literal : PyVal) : result Expression :=
  let function_name :=
    if bool_decide (op ∈ POSITIVE_OPERATORS) then "arrayExists" else "arrayAll" in
  let* comparison := operator_function op in
  let* rhs := preprocess_literal op literal in
  Ok (FunctionCall None function_name
        [ Lambda None ["x"]
            (FunctionCall None "assumeNotNull"
               [ FunctionCall None comparison [Argument None "x"; rhs] ]);
          lhs ]).

Definition simple_condition_builder (lhs : Expression) (op : string)
    (literal : PyVal) : result Expression :=
  let* comparison := operator_function op in
  let* rhs := preprocess_literal op literal in
  Ok (binary_condition None comparison lhs rhs).

(** Every [Expression] object is true. *)
Definition Expression_bool (e : Expression) : bool := true.

Definition parse_conditions_to_expr (expr : PyVal) (dataset : Dataset)
    (arrayjoin : option string) : result (option Expression) :=
  parse_conditions Expression_bool Expression_hash str is_condition
    operand_builder and_builder or_builder
    unpack_array_condition_builder simple_condition_builder
    dataset arrayjoin expr 0.

End ParseConditionsToExpr.

(** ** The simple query pipeline *)

Section SimplePipeline.

(** Opaque collaborators: the request with its settings, the query of a
    plan, the runner and the result of an execution. *)
Variables Request Query Settings Runner QueryResult : Type.
Variable settings : Request -> Settings.

(** A query plan: the query (mutated in place by the plan processors) and
    the execution strategy. *)
Record ClickhouseQueryPlan : Type := {
  query : Query;
  execution_strategy : Query -> Settings -> Runner -> result QueryResult
}.

(** Processors mutate their argument in place and may raise; what they
    did before raising stays done. *)
Record EntityProcessor : Type := {
  entity_processor_name : string;
  process_request : Request -> Request * option Exception
}.

Record PlanProcessor : Type := {
  plan_processor_name : string;
  process_query : Query -> Settings -> Query * option Exception
}.

(** The calls a pipeline makes, in the order it makes them: a record kept
    beside the objects, which no stage reads. *)
Inductive Call : Type :=
| CallEntityProcessor (name : string)
| CallBuildPlan
| CallPlanProcessor (name : string)
| CallExecutionStrategy (plan : nat) (q : Query).

(** The objects [execute] works on. [request] is the object
    [self.__request] refers to; [plans] holds the plan objects, a reference
    being an index; [query_plan_attribute] is [self.__query_plan], [None]
    as long as the attribute has not been assigned. *)
Record State : Type := {
  request : Request;
  plans : list ClickhouseQueryPlan;
  query_plan_attribute : option nat;
  calls : list Call
}.

Definition Action (A : Type) : Type := State -> State * result A.

Definition ret {A} (a : A) : Action A := fun s => (s, Ok a).

Definition and_then {A B} (a : Action A) (k : A -> Action B) : Action B :=
  fun s =>
    match a s with
    | (s', Ok x) => k x s'
    | (s', Raise e) => (s', Raise e)
    end.

Notation "'do' x '<-' a ';' k" := (and_then a (fun x => k))
  (at level 10, x name, a at level 100, k at level 200).

Definition record_call (c : Call) : Action unit :=
  fun s =>
    ({| request := request s; plans := plans s;
        query_plan_attribute := query_plan_attribute s;
        calls := calls s ++ [c] |}, Ok tt).

(** The registered processors and the attributes [__init__] stores. *)
Variable entity_processors : list EntityProcessor.
Variable plan_processors : list PlanProcessor.
Variable runner : Runner.
Variable build_plan : Request -> result ClickhouseQueryPlan.

Definition call_entity_processor (p : EntityProcessor) : Action unit :=
  do _ <- record_call (CallEntityProcessor (entity_processor_name p));
  fun s =>
    let (r, raised) := process_request p (request s) in
    ({| request := r; plans := plans s;
        query_plan_attribute := query_plan_attribute s;
        calls := calls s |},
     match raised with Some e => Raise e | None => Ok tt end).

Definition call_plan_processor (plan : nat) (p : PlanProcessor) : Action unit :=
  do _ <- record_call (CallPlanProcessor (plan_processor_name p));
  fun s =>
    match plans s !! plan with
    | Some pl =>
        let (q, raised) := process_query p (query pl) (settings (request s)) in
        ({| request := request s;
            plans := <[plan := {| query := q;
                                  execution_strategy := execution_strategy pl |}]>
                       (plans s);
            query_plan_attribute := query_plan_attribute s;
            calls := calls s |},
         match raised with Some e => Raise e | None => Ok tt end)
    | None => (s, Raise (OtherException "ReferenceError"))
    end.

(** A reference that [execute] follows is the one [assign_query_plan] has
    just made, so the lookups above and below find their plan. *)

(** [for p in ps: ...]. *)
Fixpoint for_in {A} (body : A -> Action unit) (ps : list A) : Action unit :=
  match ps with
  | [] => ret tt
  | p :: ps' => do _ <- body p; for_in body ps'
  end.

(** Modelled from the spec: [_execute_entity_processors] of
    [snuba.pipeline.processors] (section 4.3, EntityProcessed): the entity
    processors run against the request in registration order, and a
    processor that fails aborts the pipeline. *)
Definition _execute_entity_processors : Action unit :=
  for_in call_entity_processor entity_processors.

(** Modelled from the spec: [_execute_query_plan_processors] of
    [snuba.pipeline.processors] (section 4.3, PlanProcessed): the plan
    processors run against the query of the built plan, in order and
    fail-fast like the entity processors. *)
Definition _execute_query_plan_processors (plan : nat) : Action unit :=
  for_in (call_plan_processor plan) plan_processors.

(** [self.__query_plan = self.__query_plan_builder.build_plan(self.__request)]:
    the attribute refers to the plan the builder returns, which gets a
    place of its own in the store. A builder that hands out an object it has
    returned before shows here as one that returns a plan of the same
    content: the calls of an [execute], its outcome and the plan the
    attribute refers to are the same, and nothing is said below about the
    plans of earlier executions. *)
Definition assign_query_plan : Action nat :=
  do _ <- record_call CallBuildPlan;
  fun s =>
    match build_plan (request s) with
    | Ok plan =>
        ({| request := request s; plans := plans s ++ [plan];
            query_plan_attribute := Some (length (plans s));
            calls := calls s |}, Ok (length (plans s)))
    | Raise e => (s, Raise e)
    end.

(** The property [query_plan], read as an action and on a state. *)
Definition query_plan_of (s : State) : result nat :=
  match query_plan_attribute s with
  | Some plan => Ok plan
  | None => Raise AttributeError
  end.

Definition query_plan : Action nat := fun s => (s, query_plan_of s).

Definition call_execution_strategy (plan : nat) : Action QueryResult :=
  fun s =>
    match plans s !! plan with
    | Some pl =>
        and_then (record_call (CallExecutionStrategy plan (query pl)))
          (fun _ s' =>
             (s', execution_strategy pl (query pl) (settings (request s')) runner))
          s
    | None => (s, Raise (OtherException "ReferenceError"))
    end.

Definition execute : Action QueryResult :=
  do _ <- _execute_entity_processors;
  do _ <- assign_query_plan;
  do plan <- query_plan;
  do _ <- _execute_query_plan_processors plan;
  do plan <- query_plan;
  call_execution_strategy plan.

(** [SimplePipeline(request, runner, query_plan_builder)]: [__init__] stores
    its three arguments and does not assign [__query_plan]. *)
Definition init (r : Request) (heap : list ClickhouseQueryPlan) : State :=
  {| request := r; plans := heap; query_plan_attribute := None; calls := [] |}.

End SimplePipeline.

Arguments query {_ _ _ _} _.
Arguments execution_strategy {_ _ _ _} _.
Arguments Build_ClickhouseQueryPlan {_ _ _ _} _ _.
Arguments entity_processor_name {_} _.
Arguments process_request {_} _.
Arguments Build_EntityProcessor {_} _ _.
Arguments plan_processor_name {_ _} _.
Arguments process_query {_ _} _.
Arguments Build_PlanProcessor {_ _} _ _.
Arguments CallEntityProcessor {_} _.
Arguments CallBuildPlan {_}.
Arguments CallPlanProcessor {_} _.
Arguments CallExecutionStrategy {_} _ _.
Arguments request {_ _ _ _ _} _.
Arguments plans {_ _ _ _ _} _.
Arguments query_plan_attribute {_ _ _ _ _} _.
Arguments calls {_ _ _ _ _} _.
Arguments Build_State {_ _ _ _ _} _ _ _ _.
Arguments and_then {_ _ _ _ _ _ _} _ _.
Arguments record_call {_ _ _ _ _} _.
Arguments call_entity_processor {_ _ _ _ _} _.
Arguments call_plan_processor {_ _ _ _ _} _ _ _.
Arguments for_in {_ _ _ _ _ _} _ _.
Arguments _execute_entity_processors {_ _ _ _ _} _.
Arguments _execute_query_plan_processors {_ _ _ _ _} _ _ _.
Arguments assign_query_plan {_ _ _ _ _} _.
Arguments query_plan_of {_ _ _ _ _} _.
Arguments query_plan {_ _ _ _ _}.
Arguments call_execution_strategy {_ _ _ _ _} _ _ _.
Arguments execute {_ _ _ _ _} _ _ _ _ _.
Arguments init {_ _ _ _ _} _ _.

(** The query a list of plan processors leaves when none of them raises. *)
Definition processed_query {Query Settings : Type}
    (ps : list (PlanProcessor Query Settings)) (q : Query) (st : Settings) : Query :=
  fold_left (fun q p => (process_query p q st).1) ps q.

(** Whether every plan processor of a list returns, each on the query the
    one before it left. *)
Fixpoint plan_processors_return {Query Settings : Type}
    (ps : list (PlanProcessor Query Settings)) (q : Query) (st : Settings) : bool :=
  match ps with
  | [] => true
  | p :: ps' =>
      match process_query p q st with
      | (q', None) => plan_processors_return ps' q' st
      | (_, Some _) => false
      end
  end.

(** ** A concrete dataset and a concrete pipeline *)

Module Sample.

(** Modelled from the spec: [is_condition] of [snuba.util] (section 3, "Raw
    Condition"): a sequence of three elements [(lhs, operator, rhs)], the
    operator being a string. *)
Definition is_condition (v : PyVal) : result bool :=
  match v with
  | PyList [_; PyStr _; _] | PyTuple [_; PyStr _; _] => Ok true
  | _ => Ok false
  end.

(** Modelled from the spec: the operator-to-function mapping and its
    positive subset (section 3, "Operator-to-function mapping"; the comment
    above the array-unpack test names the positive operators). *)
Definition OPERATOR_TO_FUNCTION : gmap string string :=
  list_to_map
    [ (">", "greater"); ("<", "less"); (">=", "greaterOrEquals");
      ("<=", "lessOrEquals"); ("=", "equals"); ("!=", "notEquals");
      ("IN", "in"); ("NOT IN", "notIn"); ("IS NULL", "isNull");
      ("IS NOT NULL", "isNotNull"); ("LIKE", "like"); ("NOT LIKE", "notLike") ].

Definition POSITIVE_OPERATORS : list string :=
  [">"; "<"; ">="; "<="; "="; "IN"; "LIKE"].

(** [repr] and [str]. The characters of a string are the code points 0 to
    255. A string prints between single quotes, or between double quotes
    when it holds a single quote and no double quote; the quote in use and
    the backslash are escaped with a backslash, tab, newline and carriage
    return print as [\t], [\n] and [\r], and every other character that
    is not printable (the control characters, 127 to 160 and 173) as [\x]
    and two hexadecimal digits. A one-element tuple ends in a comma, and
    [str] of a string is the string. *)
Definition hex_digit (n : N) : ascii :=
  if (n <? 10)%N then ascii_of_N (48 + n)%N else ascii_of_N (87 + n)%N.

Definition repr_char (quote c : ascii) : string :=
  let n := N_of_ascii c in
  let backslash := ascii_of_N 92 in
  if Ascii.eqb c quote || Ascii.eqb c backslash
  then String backslash (String c EmptyString)
  else if (n =? 9)%N then String backslash "t"
  else if (n =? 10)%N then String backslash "n"
  else if (n =? 13)%N then String backslash "r"
  else if (n <? 32)%N || ((127 <=? n)%N && (n <=? 160)%N) || (n =? 173)%N
  then String backslash
         (String "x"%char
            (String (hex_digit (n / 16)%N)
               (String (hex_digit (n mod 16)%N) EmptyString)))
  else String c EmptyString.

Definition has_char (c : ascii) (s : string) : bool :=
  existsb (Ascii.eqb c) (list_ascii_of_string s).

Definition repr_str (s : string) : string :=
  let single := ascii_of_N 39 in
  let double := ascii_of_N 34 in
  let quote := if has_char single s && negb (has_char double s) then double else single in
  String quote
    (String.concat "" (map (repr_char quote) (list_ascii_of_string s))
     +:+ String quote EmptyString).

Fixpoint repr (v : PyVal) : string :=
  match v with
  | PyNone => "None"
  | PyInt z => pretty z
  | PyStr s => repr_str s
  | PyList items => "[" +:+ String.concat ", " (map repr items) +:+ "]"
  | PyTuple [item] => "(" +:+ repr item +:+ ",)"
  | PyTuple items => "(" +:+ String.concat ", " (map repr items) +:+ ")"
  end.

Definition str (v : PyVal) : string :=
  match v with
  | PyStr s => s
  | _ => repr v
  end.

(** No operand is a function call. *)
Definition is_function (v : PyVal) (depth : Z) : result bool := Ok false.

Definition parse_function_to_expr (v : PyVal) : result Expression :=
  Raise (OtherException "ParsingException").

(** [QUOTED_LITERAL_RE.match] for the pattern [^'.*'$]: a single quote,
    any characters other than a newline, and a single quote, at the end of
    the string or before a newline that ends it. *)
Definition QUOTED_LITERAL_RE_match (s : string) : bool :=
  let quote := ascii_of_N 39 in
  let newline := ascii_of_N 10 in
  match list_ascii_of_string s with
  | first :: rest =>
      Ascii.eqb first quote
      && match rev rest with
         | last :: inner =>
             let closed :=
               if Ascii.eqb last newline then inner else last :: inner in
             match closed with
             | closing :: text =>
                 Ascii.eqb closing quote
                 && forallb (fun c => negb (Ascii.eqb c newline)) text
             | [] => false
             end
         | [] => false
         end
  | [] => false
  end.

(** A dataset that leaves conditions as they are, with a scalar column
    [a], an array column [tags] and the nested array column [tags.key]. *)
Definition unchanged_condition (condition : PyVal) : result (PyVal * string * PyVal) :=
  match condition with
  | PyList [lhs; PyStr op; lit] | PyTuple [lhs; PyStr op; lit] => Ok (lhs, op, lit)
  | _ => Raise (OtherException "ValueError")
  end.

Definition columns : gmap string FlattenedColumn :=
  list_to_map
    [ ("a", {| type := Scalar "UInt64"; base_name := None |});
      ("tags", {| type := Array (Scalar "String"); base_name := None |});
      ("tags.key", {| type := Array (Scalar "String"); base_name := Some "tags" |}) ].

Definition dataset : Dataset :=
  {| process_condition := unchanged_condition; get_columns := columns |}.

Definition compile (conditions : PyVal) (arrayjoin : option string)
    : result (option Expression) :=
  parse_conditions_to_expr OPERATOR_TO_FUNCTION POSITIVE_OPERATORS "and" "or"
    str is_condition is_function parse_function_to_expr QUOTED_LITERAL_RE_match
    conditions dataset arrayjoin.

(** [parse_conditions] with the builders of [parse_conditions_to_expr], at
    any depth. *)
Definition parse (conditions : PyVal) (arrayjoin : option string) (depth : Z)
    : result (option Expression) :=
  parse_conditions Expression_bool Expression_hash str is_condition
    (operand_builder is_function parse_function_to_expr QUOTED_LITERAL_RE_match)
    (and_builder "and") (or_builder "or")
    (unpack_array_condition_builder OPERATOR_TO_FUNCTION POSITIVE_OPERATORS)
    (simple_condition_builder OPERATOR_TO_FUNCTION)
    dataset arrayjoin conditions depth.

Definition cond (lhs op : string) (lit : PyVal) : PyVal :=
  PyTuple [PyStr lhs; PyStr op; lit].

Definition equals (column : string) (value : PyVal) : Expression :=
  FunctionCall None "equals" [Column None column None; Literal None value].

End Sample.

Module SamplePipeline.

(** The request counts the times it was processed, and the query is the
    list of the stages it went through. *)
Definition P1 : EntityProcessor nat :=
  {| entity_processor_name := "P1";
     process_request := fun r =>
       if (r =? 0)%nat then (S r, None) else (r, Some (OtherException "processed")) |}.

Definition P2 : EntityProcessor nat :=
  {| entity_processor_name := "P2"; process_request := fun r => (r, None) |}.

Definition P3 : PlanProcessor (list string) unit :=
  {| plan_processor_name := "P3";
     process_query := fun q _ => (q ++ ["P3"], None) |}.

Definition build_plan (r : nat)
    : result (ClickhouseQueryPlan (list string) unit unit (list string)) :=
  Ok {| query := ["built"];
        execution_strategy := fun q _ _ => Ok (q ++ ["executed"]) |}.

Definition refuse_plan (r : nat)
    : result (ClickhouseQueryPlan (list string) unit unit (list string)) :=
  Raise (OtherException "no plan").

Definition execute
    (builder : nat -> result (ClickhouseQueryPlan (list string) unit unit (list string))) :=
  execute (fun _ : nat => tt) [P1; P2] [P3] tt builder.

Definition fresh : State nat (list string) unit unit (list string) := init 0%nat [].

End SamplePipeline.

(** ** Shapes of conditions and of expressions *)

(** A sub-condition that is a simple condition compiling to [e]. *)
Definition compiles_as_leaf {T : Type} (is_condition : PyVal -> result bool)
    (leaf : PyVal -> result (option T)) (cond : PyVal) (e : T) : Prop :=
  truth cond = true /\ is_condition cond = Ok true /\ leaf cond = Ok (Some e).

(** A top-level sub-condition: a simple condition, or a list or tuple of
    simple conditions, which compiles to their combination under [OR]. *)
Definition compiles_as_group (OR : string) (is_condition : PyVal -> result bool)
    (leaf : PyVal -> result (option Expression)) (cond : PyVal)
    (group : Expression) : Prop :=
  compiles_as_leaf is_condition leaf cond group
  \/ exists items first rest,
      (cond = PyList items \/ cond = PyTuple items)
      /\ is_condition cond = Ok false
      /\ Forall2 (compiles_as_leaf is_condition leaf) items (first :: rest)
      /\ group = right_nested OR first rest.

(** No node of the expression carries an alias. *)
Fixpoint alias_free (e : Expression) : bool :=
  match e with
  | Literal alias _ | Column alias _ _ | Argument alias _ =>
      bool_decide (alias = None)
  | FunctionCall alias _ parameters =>
      bool_decide (alias = None) && forallb alias_free parameters
  | Lambda alias _ transformation =>
      bool_decide (alias = None) && alias_free transformation
  end.

(** * Properties *)

(** ** Results and loops *)

Lemma for_each_ext {A B} (f g : A -> result B) (xs : list A) :
  (forall x, f x = g x) -> for_each f xs = for_each g xs.
Proof.
  intros Hfg. induction xs as [ | x xs IH ]; simpl; [ reflexivity | ].
  now rewrite Hfg, IH.
Qed.

Lemma for_each_app {A B} (f : A -> result B) (xs1 xs2 : list A) :
  for_each f (xs1 ++ xs2)
  = let* ys1 := for_each f xs1 in
    let* ys2 := for_each f xs2 in
    Ok (ys1 ++ ys2).
Proof.
  induction xs1 as [ | x xs1 IH ]; simpl.
  - now destruct (for_each f xs2).
  - destruct (f x) as [ y | e ]; simpl; [ | reflexivity ].
    rewrite IH. destruct (for_each f xs1) as [ ys1 | e ]; simpl; [ | reflexivity ].
    now destruct (for_each f xs2).
Qed.

Lemma for_each_elem_of {A B} (f : A -> result B) (xs : list A) (ys : list B) (x : A) :
  for_each f xs = Ok ys -> x ∈ xs -> exists y, f x = Ok y /\ y ∈ ys.
Proof.
  revert ys. induction xs as [ | x' xs IH ]; simpl; intros ys Hys Hx.
  - now apply elem_of_nil in Hx.
  - destruct (f x') as [ y' | e ] eqn:Hfx; simpl in Hys; [ | discriminate ].
    destruct (for_each f xs) as [ ys' | e ]; simpl in Hys; [ | discriminate ].
    injection Hys as <-. apply elem_of_cons in Hx as [ -> | Hx ].
    + exists y'. split; [ exact Hfx | now left ].
    + destruct (IH ys' eq_refl Hx) as (y & Hy & Hin). exists y. split; [ exact Hy | now right ].
Qed.

Lemma for_each_Forall {A B} (P : B -> Prop) (f : A -> result B)
    (xs : list A) (ys : list B) :
  (forall x y, f x = Ok y -> P y) -> for_each f xs = Ok ys -> Forall P ys.
Proof.
  intros HP. revert ys. induction xs as [ | x xs IH ]; simpl; intros ys.
  - intros [= <-]. constructor.
  - destruct (f x) as [ y | e ] eqn:Hfx; simpl; [ | discriminate ].
    destruct (for_each f xs) as [ ys' | e ]; simpl; [ | discriminate ].
    intros [= <-]. constructor; [ now apply (HP x) | now apply IH ].
Qed.

(** Checking every result as soon as it is there, or all of them once
    they are all there, comes to the same when every element has a result. *)
Lemma for_each_checked {A B} (f : A -> result B) (check : B -> result unit)
    (xs : list A) (ys : list B) :
  for_each f xs = Ok ys ->
  for_each (fun x => let* y := f x in let* _ := check y in Ok y) xs
  = let* _ := for_each check ys in Ok ys.
Proof.
  revert ys. induction xs as [ | x xs IH ]; simpl; intros ys.
  - now intros [= <-].
  - destruct (f x) as [ y | e ]; simpl; [ | discriminate ].
    destruct (for_each f xs) as [ ys' | e ]; simpl; [ | discriminate ].
    intros [= <-]. simpl. destruct (check y) as [ [] | e ]; simpl; [ | reflexivity ].
    rewrite (IH ys' eq_refl).
    now destruct (for_each check ys') as [ units | e ].
Qed.

(** ** The order of values *)

(** Induction principle that also descends into the elements of sequences. *)
Lemma PyVal_nested_ind (P : PyVal -> Prop) :
  P PyNone ->
  (forall z, P (PyInt z)) ->
  (forall s, P (PyStr s)) ->
  (forall items, Forall P items -> P (PyList items)) ->
  (forall items, Forall P items -> P (PyTuple items)) ->
  forall v, P v.
Proof.
  intros HN HI HS HL HT.
  fix IH 1. intros [ | z | s | items | items ].
  - exact HN.
  - apply HI.
  - apply HS.
  - apply HL. induction items as [ | x xs IHxs ]; constructor; [ apply IH | exact IHxs ].
  - apply HT. induction items as [ | x xs IHxs ]; constructor; [ apply IH | exact IHxs ].
Qed.

Lemma ascii_compare_refl (c : ascii) : Ascii.compare c c = Eq.
Proof. unfold Ascii.compare. apply N.compare_refl. Qed.

Lemma string_compare_refl (s : string) : String.compare s s = Eq.
Proof.
  induction s as [ | c s IH ]; simpl; [ reflexivity | ].
  now rewrite ascii_compare_refl.
Qed.

Lemma string_compare_lt_trans (a b c : string) :
  String.compare a b = Lt -> String.compare b c = Lt -> String.compare a c = Lt.
Proof.
  revert b c. induction a as [ | x a IH ]; intros [ | y b ] [ | z c ]; simpl;
    try discriminate; try reflexivity.
  destruct (Ascii.compare x y) eqn:Hxy; try discriminate;
    destruct (Ascii.compare y z) eqn:Hyz; try discriminate; intros Hab Hbc.
  - apply Ascii.compare_eq_iff in Hxy, Hyz. subst.
    rewrite ascii_compare_refl. eauto.
  - apply Ascii.compare_eq_iff in Hxy. subst. now rewrite Hyz.
  - apply Ascii.compare_eq_iff in Hyz. subst. now rewrite Hxy.
  - unfold Ascii.compare in *. rewrite N.compare_lt_iff in Hxy, Hyz.
    assert (H : (N_of_ascii x ?= N_of_ascii z)%N = Lt)
      by (apply N.compare_lt_iff; lia).
    now rewrite H.
Qed.

Lemma string_ltb_flip (a b : string) :
  String.ltb b a = negb (String.ltb a b) && negb (bool_decide (a = b)).
Proof.
  unfold String.ltb. rewrite (String.compare_antisym b a).
  destruct (String.compare a b) eqn:Hab; simpl.
  - apply String.compare_eq_iff in Hab. now rewrite bool_decide_eq_true_2.
  - reflexivity.
  - rewrite bool_decide_eq_false_2; [ reflexivity | ].
    intros ->. now rewrite string_compare_refl in Hab.
Qed.

Lemma string_ltb_trans (a b c : string) :
  String.ltb a b = true -> String.ltb b c = true -> String.ltb a c = true.
Proof.
  unfold String.ltb. intros Hab Hbc.
  rewrite (string_compare_lt_trans a b c); [ reflexivity | | ].
  - now destruct (String.compare a b).
  - now destruct (String.compare b c).
Qed.

Lemma seq_lt_flip (xs : list PyVal) :
  Forall flips xs ->
  forall ys r, seq_lt py_lt xs ys = Ok r ->
    seq_lt py_lt ys xs = Ok (negb r && negb (bool_decide (xs = ys))).
Proof.
  induction 1 as [ | x xs Hx _ IH ]; intros [ | y ys ] r; simpl.
  - now intros [= <-].
  - now intros [= <-].
  - now intros [= <-].
  - destruct (decide (x = y)) as [ <- | Hne ].
    + rewrite !bool_decide_eq_true_2 by reflexivity. intros Hr.
      rewrite (IH ys r Hr). do 3 f_equal.
      apply bool_decide_ext. split; congruence.
    + rewrite (bool_decide_eq_false_2 (x = y)) by exact Hne.
      rewrite (bool_decide_eq_false_2 (y = x)) by congruence. intros Hr.
      rewrite (Hx y r Hr).
      rewrite (bool_decide_eq_false_2 (x = y)) by exact Hne.
      rewrite (bool_decide_eq_false_2 (x :: xs = y :: ys)) by congruence.
      reflexivity.
Qed.

Lemma py_lt_flip (a : PyVal) : flips a.
Proof.
  induction a as [ | x | x | xs IH | xs IH ] using PyVal_nested_ind;
    intros [ | y | y | ys | ys ] r; simpl; try discriminate.
  - intros [= <-]. f_equal.
    destruct (decide (PyInt x = PyInt y)) as [ [= ->] | Hne ].
    + rewrite bool_decide_eq_true_2 by reflexivity. rewrite Z.ltb_irrefl. reflexivity.
    + rewrite bool_decide_eq_false_2 by exact Hne.
      assert (x <> y) by congruence.
      destruct (Z.ltb_spec x y), (Z.ltb_spec y x); simpl; try reflexivity; lia.
  - intros [= <-]. f_equal. rewrite string_ltb_flip. do 2 f_equal.
    apply bool_decide_ext. split; congruence.
  - intros Hr. rewrite (seq_lt_flip xs IH ys r Hr). do 3 f_equal.
    apply bool_decide_ext. split; congruence.
  - intros Hr. rewrite (seq_lt_flip xs IH ys r Hr). do 3 f_equal.
    apply bool_decide_ext. split; congruence.
Qed.

Lemma py_lt_asym (a b : PyVal) : py_lt a b = Ok true -> py_lt b a = Ok false.
Proof. intros H. now rewrite (py_lt_flip a b true H). Qed.

Lemma py_lt_total (a b : PyVal) :
  py_lt a b = Ok false -> a <> b -> py_lt b a = Ok true.
Proof.
  intros H Hne. rewrite (py_lt_flip a b false H).
  now rewrite bool_decide_eq_false_2.
Qed.

Lemma seq_lt_trans (xs : list PyVal) :
  Forall transits xs ->
  forall ys zs r, seq_lt py_lt xs ys = Ok true -> seq_lt py_lt ys zs = Ok true ->
    seq_lt py_lt xs zs = Ok r -> r = true.
Proof.
  induction 1 as [ | x xs Hx _ IH ]; intros [ | y ys ] [ | z zs ] r; simpl;
    try discriminate; try (now intros _ _ [= <-]).
  destruct (decide (x = y)) as [ <- | Hxy ].
  - rewrite (bool_decide_eq_true_2 (x = x)) by reflexivity.
    destruct (decide (x = z)) as [ <- | Hxz ].
    + rewrite (bool_decide_eq_true_2 (x = x)) by reflexivity. apply IH.
    + rewrite (bool_decide_eq_false_2 (x = z)) by exact Hxz.
      intros _ Hyz Hr. congruence.
  - rewrite (bool_decide_eq_false_2 (x = y)) by exact Hxy.
    destruct (decide (y = z)) as [ <- | Hyz ].
    + rewrite (bool_decide_eq_true_2 (y = y)) by reflexivity.
      rewrite (bool_decide_eq_false_2 (x = y)) by exact Hxy.
      intros Hlt _ Hr. congruence.
    + rewrite (bool_decide_eq_false_2 (y = z)) by exact Hyz.
      destruct (decide (x = z)) as [ <- | Hxz ].
      * intros Hlt Hlt' _. apply py_lt_asym in Hlt. congruence.
      * rewrite (bool_decide_eq_false_2 (x = z)) by exact Hxz.
        intros Hlt Hlt' Hr. exact (Hx y z r Hlt Hlt' Hr).
Qed.

Lemma py_lt_trans (a : PyVal) : transits a.
Proof.
  induction a as [ | x | x | xs IH | xs IH ] using PyVal_nested_ind;
    intros [ | y | y | ys | ys ] [ | z | z | zs | zs ] r; simpl; try discriminate.
  - intros [= Hxy] [= Hyz] [= <-]. apply Z.ltb_lt in Hxy, Hyz. apply Z.ltb_lt. lia.
  - intros [= Hxy] [= Hyz] [= <-]. eapply string_ltb_trans; eauto.
  - now apply seq_lt_trans.
  - now apply seq_lt_trans.
Qed.

(** ** Sorting comparable values *)

Section SortFacts.
Variable S : PyVal -> Prop.
Hypothesis S_comparable : forall a b, S a -> S b -> exists r, py_lt a b = Ok r.

Lemma ltb_Ok (a b : PyVal) : S a -> S b -> py_lt a b = Ok (ltb a b).
Proof.
  intros Ha Hb. destruct (S_comparable a b Ha Hb) as [r Hr].
  unfold ltb. rewrite Hr. now destruct r.
Qed.

Lemma ltb_asym (a b : PyVal) : S a -> S b -> ltb a b = true -> ltb b a = false.
Proof.
  intros Ha Hb Hlt. pose proof (ltb_Ok a b Ha Hb) as Hab. rewrite Hlt in Hab.
  apply py_lt_asym in Hab. unfold ltb. now rewrite Hab.
Qed.

Lemma ltb_total (a b : PyVal) :
  S a -> S b -> ltb a b = false -> ltb b a = false -> a = b.
Proof.
  intros Ha Hb Hab Hba. destruct (decide (a = b)) as [ | Hne ]; [ assumption | ].
  pose proof (ltb_Ok a b Ha Hb) as H. rewrite Hab in H.
  apply py_lt_total in H; [ | exact Hne ]. unfold ltb in Hba. now rewrite H in Hba.
Qed.

Lemma ltb_trans (a b c : PyVal) :
  S a -> S b -> S c -> ltb a b = true -> ltb b c = true -> ltb a c = true.
Proof.
  intros Ha Hb Hc Hab Hbc.
  pose proof (ltb_Ok a b Ha Hb) as H1. rewrite Hab in H1.
  pose proof (ltb_Ok b c Hb Hc) as H2. rewrite Hbc in H2.
  exact (py_lt_trans a b c _ H1 H2 (ltb_Ok a c Ha Hc)).
Qed.

Lemma ltb_le_lt_trans (a b c : PyVal) :
  S a -> S b -> S c -> ltb b a = false -> ltb b c = true -> ltb a c = true.
Proof.
  intros Ha Hb Hc Hba Hbc. destruct (ltb a b) eqn:Hab.
  - now apply (ltb_trans a b c).
  - now rewrite (ltb_total a b Ha Hb Hab Hba).
Qed.

Lemma insort_pure_perm (x : PyVal) (s : list PyVal) : insort_pure x s ≡ₚ x :: s.
Proof.
  induction s as [ | y ys IH ]; simpl; [ reflexivity | ].
  destruct (ltb y x); [ | reflexivity ].
  rewrite IH. apply Permutation_swap.
Qed.

Lemma sorted_pure_perm (l : list PyVal) : sorted_pure l ≡ₚ l.
Proof.
  induction l as [ | x l IH ]; simpl; [ reflexivity | ].
  now rewrite insort_pure_perm, IH.
Qed.

Lemma insort_is_pure (x : PyVal) (s : list PyVal) :
  S x -> Forall S s -> insort x s = Ok (insort_pure x s).
Proof.
  intros Hx. induction 1 as [ | y ys Hy _ IH ]; simpl; [ reflexivity | ].
  rewrite (ltb_Ok y x Hy Hx). simpl. destruct (ltb y x); [ | reflexivity ].
  now rewrite IH.
Qed.

Lemma sorted_is_pure (l : list PyVal) :
  Forall S l -> sorted l = Ok (sorted_pure l).
Proof.
  induction 1 as [ | x l Hx Hl IH ]; simpl; [ reflexivity | ].
  rewrite IH. simpl. apply insort_is_pure; [ exact Hx | ].
  now rewrite sorted_pure_perm.
Qed.

Lemma insort_pure_comm (x y : PyVal) (s : list PyVal) :
  S x -> S y -> Forall S s ->
  insort_pure x (insort_pure y s) = insort_pure y (insort_pure x s).
Proof.
  intros Hx Hy. induction 1 as [ | z zs Hz _ IH ]; simpl.
  - destruct (ltb y x) eqn:Hyx, (ltb x y) eqn:Hxy; try reflexivity.
    + now rewrite (ltb_asym y x Hy Hx Hyx) in Hxy.
    + now rewrite (ltb_total x y Hx Hy Hxy Hyx).
  - destruct (ltb z y) eqn:Hzy, (ltb z x) eqn:Hzx; simpl;
      rewrite ?Hzy, ?Hzx.
    + now rewrite IH.
    + now rewrite (ltb_le_lt_trans x z y Hx Hz Hy Hzx Hzy).
    + now rewrite (ltb_le_lt_trans y z x Hy Hz Hx Hzy Hzx).
    + destruct (ltb y x) eqn:Hyx, (ltb x y) eqn:Hxy; simpl; rewrite ?Hzy, ?Hzx;
        try reflexivity.
      * now rewrite (ltb_asym y x Hy Hx Hyx) in Hxy.
      * now rewrite (ltb_total x y Hx Hy Hxy Hyx).
Qed.

Lemma sorted_pure_permutation (l l' : list PyVal) :
  l ≡ₚ l' -> Forall S l -> sorted_pure l = sorted_pure l'.
Proof.
  induction 1 as [ | x l l' _ IH | x y l | l l' l'' H1 IH1 _ IH2 ]; intros HS.
  - reflexivity.
  - simpl. rewrite IH; [ reflexivity | ]. now inversion HS.
  - simpl. inversion HS as [ | ? ? Hy HS' ]; subst.
    inversion HS' as [ | ? ? Hx HS'' ]; subst.
    apply insort_pure_comm; auto. now rewrite sorted_pure_perm.
  - rewrite IH1 by exact HS. apply IH2. now rewrite <- H1.
Qed.

Lemma insort_pure_sorted (x : PyVal) (s : list PyVal) :
  S x -> Forall S s ->
  StronglySorted (fun a b => ltb b a = false) s ->
  StronglySorted (fun a b => ltb b a = false) (insort_pure x s).
Proof.
  intros Hx HS. induction 1 as [ | y ys Hys IH Hle ]; simpl.
  - repeat constructor.
  - inversion HS as [ | ? ? Hy HS' ]; subst.
    destruct (ltb y x) eqn:Hyx.
    + constructor; [ now apply IH | ].
      rewrite insort_pure_perm. constructor; [ | exact Hle ].
      now apply ltb_asym.
    + constructor; [ now constructor | ].
      constructor; [ exact Hyx | ].
      rewrite Forall_forall in Hle, HS' |- *. intros z Hz.
      destruct (ltb z x) eqn:Hzx; [ | reflexivity ].
      assert (Hzy : ltb z y = true).
      { destruct (ltb x y) eqn:Hxy.
        - apply (ltb_trans z x y); auto.
        - now rewrite <- (ltb_total x y Hx Hy Hxy Hyx). }
      rewrite Hle in Hzy by exact Hz. discriminate.
Qed.

Lemma sorted_pure_sorted (l : list PyVal) :
  Forall S l -> StronglySorted (fun a b => ltb b a = false) (sorted_pure l).
Proof.
  induction 1 as [ | x l Hx Hl IH ]; simpl; [ constructor | ].
  apply insort_pure_sorted; auto. now rewrite sorted_pure_perm.
Qed.

End SortFacts.

(** On pairwise comparable elements [sorted] returns, its result is in
    ascending order, and it is the same for every arrangement of the
    elements. *)
Lemma sorted_of_permutation (l1 l2 : list PyVal) :
  (forall a b, a ∈ l1 -> b ∈ l1 -> exists r, py_lt a b = Ok r) ->
  l1 ≡ₚ l2 ->
  exists s,
    sorted l1 = Ok s /\ sorted l2 = Ok s /\ s ≡ₚ l1
    /\ StronglySorted (fun a b => py_lt b a = Ok false) s.
Proof.
  intros Hcmp Hperm. exists (sorted_pure l1).
  assert (H1 : Forall (fun a => a ∈ l1) l1) by (now apply Forall_forall).
  assert (H2 : Forall (fun a => a ∈ l1) l2) by (now rewrite <- Hperm).
  split; [ now apply (sorted_is_pure (fun a => a ∈ l1)) | ].
  split.
  - rewrite (sorted_pure_permutation (fun a => a ∈ l1) Hcmp l1 l2 Hperm H1).
    now apply (sorted_is_pure (fun a => a ∈ l1)).
  - split; [ apply sorted_pure_perm | ].
    pose proof (sorted_pure_sorted (fun a => a ∈ l1) Hcmp l1 H1) as Hs.
    assert (Hin : Forall (fun a => a ∈ l1) (sorted_pure l1))
      by (now rewrite sorted_pure_perm).
    induction Hs as [ | x s Hs IH Hle ]; constructor.
    + apply IH. now inversion Hin.
    + inversion Hin as [ | ? ? Hx Hin' ]; subst.
      rewrite Forall_forall in Hle, Hin' |- *. intros b Hb.
      rewrite (ltb_Ok (fun a => a ∈ l1) Hcmp b x (Hin' b Hb) Hx).
      now rewrite Hle.
Qed.

(** ** Insertion-ordered dictionaries keep the first occurrences *)

Section FirstOccurrences.
Context {K : Type} `{EqDecision K}.

Lemma filter_ne_app (k : K) (l1 l2 : list K) :
  List.filter (fun k' => negb (bool_decide (k' = k))) (l1 ++ l2)
  = List.filter (fun k' => negb (bool_decide (k' = k))) l1
    ++ List.filter (fun k' => negb (bool_decide (k' = k))) l2.
Proof. apply List.filter_app. Qed.

Lemma elem_of_filter_ne (k x : K) (l : list K) :
  x ∈ List.filter (fun k' => negb (bool_decide (k' = k))) l <-> x ∈ l /\ x <> k.
Proof.
  rewrite !list_elem_of_In, List.filter_In, negb_true_iff, bool_decide_eq_false.
  reflexivity.
Qed.

Lemma elem_of_first_occurrences (x : K) (ks : list K) :
  x ∈ first_occurrences ks <-> x ∈ ks.
Proof.
  induction ks as [ | k ks IH ]; simpl; [ reflexivity | ].
  rewrite !elem_of_cons, elem_of_filter_ne, IH.
  destruct (decide (x = k)); tauto.
Qed.

Lemma NoDup_filter_ne (k : K) (l : list K) :
  NoDup l -> NoDup (List.filter (fun k' => negb (bool_decide (k' = k))) l).
Proof.
  induction 1 as [ | x l Hx Hl IH ]; simpl; [ constructor | ].
  destruct (bool_decide (x = k)); simpl; [ exact IH | ].
  constructor; [ | exact IH ].
  rewrite elem_of_filter_ne. tauto.
Qed.

Lemma NoDup_first_occurrences (ks : list K) : NoDup (first_occurrences ks).
Proof.
  induction ks as [ | k ks IH ]; simpl; constructor.
  - rewrite elem_of_filter_ne. tauto.
  - now apply NoDup_filter_ne.
Qed.

(** A later duplicate neither re-inserts nor reorders; a new key goes last. *)
Lemma first_occurrences_snoc (ks : list K) (k : K) :
  first_occurrences (ks ++ [k])
  = if decide (k ∈ ks) then first_occurrences ks else first_occurrences ks ++ [k].
Proof.
  induction ks as [ | x ks IH ]; simpl.
  - destruct (decide (k ∈ [])) as [ Hin | _ ]; [ | reflexivity ].
    now apply elem_of_nil in Hin.
  - rewrite IH. destruct (decide (k ∈ ks)) as [ Hin | Hout ].
    + rewrite decide_True by (now right). reflexivity.
    + destruct (decide (k = x)) as [ -> | Hne ].
      * rewrite decide_True by (now left).
        rewrite filter_ne_app. simpl. rewrite bool_decide_eq_true_2 by reflexivity.
        simpl. now rewrite app_nil_r.
      * rewrite decide_False by (rewrite elem_of_cons; tauto).
        rewrite filter_ne_app. simpl. rewrite bool_decide_eq_false_2 by exact Hne.
        reflexivity.
Qed.

End FirstOccurrences.

Section OrderedDictFacts.
Context {K V : Type} `{EqDecision K}.
Variable hash : K -> result unit.

Lemma setitem_keys (d d' : list (K * V)) (k : K) (v : V) :
  setitem hash d k v = Ok d' ->
  keys d' = if decide (k ∈ keys d) then keys d else keys d ++ [k].
Proof.
  unfold setitem, keys. destruct (hash k) as [ [] | e ]; simpl; [ | discriminate ].
  intros [= <-]. destruct (decide (k ∈ d.*1)) as [ Hin | Hout ].
  - clear Hin. induction d as [ | [k' v'] d IH ]; simpl; [ reflexivity | ].
    f_equal; [ now destruct (decide (k' = k)) | exact IH ].
  - now rewrite fmap_app.
Qed.

Lemma setitem_raises (d : list (K * V)) (k : K) (v : V) (e : Exception) :
  hash k = Raise e -> setitem hash d k v = Raise e.
Proof. intros Hk. unfold setitem. now rewrite Hk. Qed.

Lemma setitem_returns (d : list (K * V)) (k : K) (v : V) :
  hash k = Ok tt -> exists d', setitem hash d k v = Ok d'.
Proof. intros Hk. unfold setitem. rewrite Hk. simpl. eauto. Qed.

(** The keys of a dictionary built from a generator of pairs: every key is
    computed and then hashed before the next one is computed, the first
    exception of either kind is the outcome, and otherwise the keys are the
    first occurrences of the computed keys. *)
Lemma OrderedDict_keys {A} (f : A -> result K) (v : V) (xs : list A) :
  (let* d := OrderedDict hash (map (fun x => let* k := f x in Ok (k, v)) xs) in
   Ok (keys d))
  = let* ks := for_each (fun x => let* k := f x in let* _ := hash k in Ok k) xs in
    Ok (first_occurrences ks).
Proof.
  induction xs as [ | x xs IH ] using rev_ind; [ reflexivity | ].
  unfold OrderedDict in *. rewrite map_app, fold_left_app, for_each_app.
  cbn [map fold_left for_each].
  destruct (fold_left _ (map _ xs) (Ok [])) as [ d | e ];
    destruct (for_each _ xs) as [ ks | e' ]; cbn [bind] in IH |- *;
    try discriminate IH.
  - injection IH as IH.
    destruct (f x) as [ k | e ]; cbn [bind fst snd]; [ | reflexivity ].
    destruct (hash k) as [ [] | e ] eqn:Hk; cbn [bind].
    + destruct (setitem_returns d k v Hk) as (d' & Hd'). rewrite Hd'. cbn [bind].
      rewrite (setitem_keys d d' k v Hd'), IH, first_occurrences_snoc. f_equal.
      destruct (decide (k ∈ ks)) as [ Hin | Hout ].
      * rewrite decide_True by (now apply elem_of_first_occurrences). reflexivity.
      * rewrite decide_False by (now rewrite elem_of_first_occurrences). reflexivity.
    + now rewrite (setitem_raises d k v e Hk).
  - exact IH.
Qed.

Lemma OrderedDict_keys_bind {A B} (f : A -> result K) (v : V) (xs : list A)
    (k : list K -> result B) :
  (let* d := OrderedDict hash (map (fun x => let* key := f x in Ok (key, v)) xs) in
   k (keys d))
  = let* ks := for_each (fun x => let* key := f x in let* _ := hash key in Ok key) xs in
    k (first_occurrences ks).
Proof.
  pose proof (OrderedDict_keys f v xs) as H.
  destruct (OrderedDict hash _) as [ d | e ];
    destruct (for_each _ xs) as [ ks | e' ]; cbn [bind] in H |- *;
    try discriminate H.
  - injection H as ->. reflexivity.
  - now injection H as ->.
Qed.

End OrderedDictFacts.

(** ** The recursion of [parse_conditions] *)

Section ParseConditionsFacts.
Context {TExpression : Type} `{EqDecision TExpression}.
Variable bool_of : TExpression -> bool.
Variable hash_of : TExpression -> result unit.
Variable str : PyVal -> string.
Variable is_condition : PyVal -> result bool.
Variable operand_builder : PyVal -> result TExpression.
Variable and_builder : list TExpression -> result (option TExpression).
Variable or_builder : list TExpression -> result (option TExpression).
Variable unpack_array_condition_builder :
  TExpression -> string -> PyVal -> result TExpression.
Variable simple_condition_builder :
  TExpression -> string -> PyVal -> result TExpression.
Variable dataset : Dataset.
Variable array_join : option string.

Local Abbreviation body :=
  (parse_conditions_body bool_of hash_of str is_condition operand_builder and_builder
     or_builder unpack_array_condition_builder simple_condition_builder
     dataset array_join).
Local Abbreviation parse :=
  (parse_conditions bool_of hash_of str is_condition operand_builder and_builder
     or_builder unpack_array_condition_builder simple_condition_builder
     dataset array_join).
Local Abbreviation leaf :=
  (parse_simple_condition operand_builder unpack_array_condition_builder
     simple_condition_builder dataset array_join).

Lemma parse_conditions_body_ext f g (conditions : PyVal) (depth : Z) :
  (forall cond, f cond (depth + 1)%Z = g cond (depth + 1)%Z) ->
  body f conditions depth = body g conditions depth.
Proof.
  intros Hfg. unfold parse_conditions_body.
  destruct (negb (truth conditions)); [ reflexivity | ].
  destruct (depth =? 0)%Z.
  - destruct (iter conditions) as [ conds | e ]; simpl; [ | reflexivity ].
    rewrite (map_ext _ (fun cond => let* e := g cond (depth + 1)%Z in Ok (e, PyNone)));
      [ reflexivity | ].
    intros cond. now rewrite Hfg.
  - destruct (is_condition conditions) as [ [ | ] | e ]; simpl; try reflexivity.
    destruct (depth =? 1)%Z; [ | reflexivity ].
    destruct (iter conditions) as [ conds | e ]; simpl; [ | reflexivity ].
    now rewrite (for_each_ext _ (fun cond => g cond (depth + 1)%Z)).
Qed.

Lemma parse_conditions_body_deep f g (conditions : PyVal) (depth : Z) :
  depth <> 0%Z -> depth <> 1%Z ->
  body f conditions depth = body g conditions depth.
Proof.
  intros H0 H1. unfold parse_conditions_body.
  apply Z.eqb_neq in H0, H1. now rewrite H0, H1.
Qed.

(** [parse_conditions] satisfies the recursive equation of the source. *)
Lemma parse_conditions_unfold (conditions : PyVal) (depth : Z) :
  parse conditions depth = body (fun c d => parse c d) conditions depth.
Proof.
  unfold parse_conditions at 1.
  destruct (decide (depth = 0%Z)) as [ -> | H0 ].
  - apply parse_conditions_body_ext. intros cond. unfold parse_conditions.
    apply parse_conditions_body_ext. intros cond'.
    now apply parse_conditions_body_deep.
  - destruct (decide (depth = 1%Z)) as [ -> | H1 ].
    + apply parse_conditions_body_ext. intros cond. unfold parse_conditions.
      now apply parse_conditions_body_deep.
    + now apply parse_conditions_body_deep.
Qed.

(** Any function that satisfies the equation is [parse_conditions]. *)
Lemma parse_conditions_unique f :
  (forall c d, f c d = body f c d) ->
  forall conditions depth, f conditions depth = parse conditions depth.
Proof.
  intros Hf.
  assert (H2 : forall c d, d <> 0%Z -> d <> 1%Z -> f c d = parse c d).
  { intros c d H0 H1. rewrite Hf, parse_conditions_unfold.
    now apply parse_conditions_body_deep. }
  assert (H1 : forall c, f c 1%Z = parse c 1%Z).
  { intros c. rewrite Hf, parse_conditions_unfold.
    apply parse_conditions_body_ext. intros cond. now apply H2. }
  intros c d. destruct (decide (d = 0%Z)) as [ -> | H0 ].
  - rewrite Hf, parse_conditions_unfold.
    apply parse_conditions_body_ext. intros cond. apply H1.
  - destruct (decide (d = 1%Z)) as [ -> | H1' ]; [ apply H1 | now apply H2 ].
Qed.

Lemma parse_conditions_falsy (conditions : PyVal) (depth : Z) :
  truth conditions = false -> parse conditions depth = Ok None.
Proof.
  intros Hc. rewrite parse_conditions_unfold. unfold parse_conditions_body.
  now rewrite Hc.
Qed.

(** At the top level every sub-condition is compiled and its result hashed
    before the next one is compiled; the results that come through are
    deduplicated and combined. *)
Lemma parse_conditions_top_level (conditions : PyVal) :
  truth conditions = true ->
  parse conditions 0%Z
  = let* conds := iter conditions in
    let* compiled :=
      for_each (fun cond =>
                  let* r := parse cond 1%Z in
                  let* _ := hash_key hash_of r in
                  Ok r) conds in
    and_builder (omap (if_s bool_of) (first_occurrences compiled)).
Proof.
  intros Hc. rewrite parse_conditions_unfold. unfold parse_conditions_body.
  rewrite Hc. cbn [negb Z.eqb].
  destruct (iter conditions) as [ conds | e ]; cbn [bind]; [ | reflexivity ].
  apply (OrderedDict_keys_bind (hash_key hash_of) (fun cond => parse cond (0 + 1)%Z)
           PyNone conds (fun ks => and_builder (omap (if_s bool_of) ks))).
Qed.

Lemma parse_conditions_leaf (conditions : PyVal) (depth : Z) :
  depth <> 0%Z -> truth conditions = true -> is_condition conditions = Ok true ->
  parse conditions depth = leaf conditions.
Proof.
  intros Hd Hc Hleaf. rewrite parse_conditions_unfold. unfold parse_conditions_body.
  apply Z.eqb_neq in Hd. now rewrite Hc, Hd, Hleaf.
Qed.

Lemma parse_conditions_group (conditions : PyVal) :
  truth conditions = true -> is_condition conditions = Ok false ->
  parse conditions 1%Z
  = let* conds := iter conditions in
    let* sub := for_each (fun cond => parse cond 2%Z) conds in
    or_builder (omap (if_s bool_of) sub).
Proof.
  intros Hc Hleaf. rewrite parse_conditions_unfold. unfold parse_conditions_body.
  now rewrite Hc, Hleaf.
Qed.

Lemma parse_conditions_too_deep (conditions : PyVal) (depth : Z) :
  depth <> 0%Z -> depth <> 1%Z ->
  truth conditions = true -> is_condition conditions = Ok false ->
  parse conditions depth = Raise (InvalidConditionException (str conditions)).
Proof.
  intros H0 H1 Hc Hleaf. rewrite parse_conditions_unfold.
  unfold parse_conditions_body.
  apply Z.eqb_neq in H0, H1. now rewrite Hc, H0, H1, Hleaf.
Qed.

(** C4 (amended): an input on which [is_condition] holds is compiled as a
    simple condition at every depth other than 0, without any recursive
    call: the result is that of the leaf branch, whatever the function
    called for the sub-conditions is. *)
Theorem triple_is_a_leaf_below_top_level (conditions : PyVal) (depth : Z) :
  depth <> 0%Z ->
  truth conditions = true ->
  is_condition conditions = Ok true ->
  parse conditions depth = leaf conditions
  /\ forall self, body self conditions depth = leaf conditions.
Proof.
  intros Hd Hc Hleaf. split; [ now apply parse_conditions_leaf | ].
  intros self. unfold parse_conditions_body.
  apply Z.eqb_neq in Hd. now rewrite Hc, Hd, Hleaf.
Qed.

(** C6: at a depth greater than 1, a non-empty input that is not a simple
    condition raises [InvalidConditionException] with the printed input;
    so does, from the top level, a sequence nested three levels deep whose
    first two levels are not simple conditions. *)
Theorem invalid_condition_beyond_depth_1 :
  (forall conditions depth,
      (1 < depth)%Z ->
      truth conditions = true ->
      is_condition conditions = Ok false ->
      parse conditions depth = Raise (InvalidConditionException (str conditions)))
  /\ (forall inner,
         truth inner = true ->
         is_condition inner = Ok false ->
         is_condition (PyList [inner]) = Ok false ->
         parse (PyList [PyList [inner]]) 0%Z
         = Raise (InvalidConditionException (str inner))).
Proof.
  split.
  - intros conditions depth Hd Hc Hleaf.
    apply parse_conditions_too_deep; auto; lia.
  - intros inner Hc Hleaf Hgroup.
    rewrite parse_conditions_top_level by reflexivity. simpl.
    rewrite parse_conditions_group by (auto; reflexivity). simpl.
    rewrite parse_conditions_too_deep by (auto; lia). reflexivity.
Qed.

End ParseConditionsFacts.

(** ** The expression builders *)

Lemma in_IN_NOT_IN_true (op : string) :
  in_IN_NOT_IN op = true <-> op = "IN" \/ op = "NOT IN".
Proof.
  unfold in_IN_NOT_IN. rewrite orb_true_iff, !String.eqb_eq. reflexivity.
Qed.

Lemma in_IN_NOT_IN_false (op : string) :
  in_IN_NOT_IN op = false <-> op <> "IN" /\ op <> "NOT IN".
Proof.
  unfold in_IN_NOT_IN. rewrite orb_false_iff, !String.eqb_neq. reflexivity.
Qed.

Lemma omap_if_s_Expression (results : list (option Expression)) :
  omap (if_s Expression_bool) results = omap id results.
Proof.
  induction results as [ | [ e | ] results IH ]; simpl; [ | f_equal | ]; auto.
Qed.

Lemma elem_of_omap_id {A} (x : A) (l : list (option A)) :
  x ∈ omap id l <-> Some x ∈ l.
Proof.
  rewrite list_elem_of_omap. split.
  - intros ([ y | ] & Hin & Hy); simpl in Hy; congruence.
  - intros Hin. exists (Some x). auto.
Qed.

Lemma NoDup_omap_id {A} (l : list (option A)) : NoDup l -> NoDup (omap id l).
Proof.
  induction 1 as [ | [ x | ] l Hx Hl IH ]; simpl; [ constructor | | exact IH ].
  constructor; [ | exact IH ]. now rewrite elem_of_omap_id.
Qed.

Lemma omap_id_filter {A} (p : option A -> bool) (q : A -> bool)
    (l : list (option A)) :
  (forall x, p (Some x) = q x) ->
  omap id (List.filter p l) = List.filter q (omap id l).
Proof.
  intros Hpq. induction l as [ | [ x | ] l IH ]; simpl; [ reflexivity | | ].
  - rewrite Hpq. destruct (q x); simpl; [ f_equal | ]; exact IH.
  - destruct (p None); exact IH.
Qed.

Lemma omap_id_filter_Some {A} (p : option A -> bool) (l : list (option A)) :
  (forall x, p (Some x) = true) ->
  omap id (List.filter p l) = omap id l.
Proof.
  intros Hp. rewrite (omap_id_filter p (fun _ => true) l Hp).
  induction (omap id l) as [ | x xs IH ]; simpl; [ reflexivity | now f_equal ].
Qed.

(** Dropping [None] and keeping first occurrences commute. *)
Lemma omap_id_first_occurrences {A} `{EqDecision A} (l : list (option A)) :
  omap id (first_occurrences l) = first_occurrences (omap id l).
Proof.
  induction l as [ | [ x | ] l IH ]; [ reflexivity | | ].
  - cbn [first_occurrences]. cbn [omap list_omap id]. cbn [first_occurrences].
    f_equal. rewrite <- IH. apply omap_id_filter.
    intros y. f_equal. apply bool_decide_ext. split; congruence.
  - cbn [first_occurrences]. cbn [omap list_omap id]. rewrite <- IH.
    apply omap_id_filter_Some.
    intros y. now rewrite bool_decide_eq_false_2.
Qed.

Lemma omap_id_Some {A} (l : list A) : omap id (map Some l) = l.
Proof. induction l as [ | x l IH ]; simpl; [ reflexivity | f_equal; exact IH ]. Qed.

Lemma forallb_Permutation {A} (f : A -> bool) (l l' : list A) :
  l ≡ₚ l' -> forallb f l = forallb f l'.
Proof.
  induction 1 as [ | x l l' _ IH | x y l | l l' l'' _ IH1 _ IH2 ]; simpl.
  - reflexivity.
  - now rewrite IH.
  - now rewrite !andb_assoc, (andb_comm (f y)).
  - now rewrite IH1.
Qed.

Lemma hashable_literals (items : list PyVal) :
  forallb Expression_hashable (map (Literal None) items) = forallb hashable items.
Proof. induction items as [ | x items IH ]; simpl; [ reflexivity | now rewrite IH ]. Qed.

(** Hashing the compiled results one after the other raises [TypeError] at
    the first expression that is not hashable. *)
Lemma hash_keys_Expression (compiled : list (option Expression)) :
  (let* _ := for_each (hash_key Expression_hash) compiled in Ok compiled)
  = if forallb Expression_hashable (omap id compiled)
    then Ok compiled else Raise TypeError.
Proof.
  induction compiled as [ | [ e | ] compiled IH ]; [ reflexivity | | ].
  - cbn [for_each hash_key omap list_omap id forallb].
    unfold Expression_hash at 1.
    destruct (Expression_hashable e); cbn [bind andb]; [ | reflexivity ].
    destruct (for_each (hash_key Expression_hash) compiled) as [ units | e' ];
      destruct (forallb Expression_hashable (omap id compiled));
      cbn [bind] in IH |- *; try discriminate IH; [ reflexivity | exact IH ].
  - cbn [for_each hash_key omap list_omap id forallb bind].
    destruct (for_each (hash_key Expression_hash) compiled) as [ units | e' ];
      destruct (forallb Expression_hashable (omap id compiled));
      cbn [bind] in IH |- *; try discriminate IH; [ reflexivity | exact IH ].
Qed.

Section ParseConditionsToExprFacts.
Variable OPERATOR_TO_FUNCTION : gmap string string.
Variable POSITIVE_OPERATORS : list string.
Variable BooleanFunctions_AND BooleanFunctions_OR : string.
Variable str : PyVal -> string.
Variable is_condition : PyVal -> result bool.
Variable is_function : PyVal -> Z -> result bool.
Variable parse_function_to_expr : PyVal -> result Expression.
Variable QUOTED_LITERAL_RE_match : string -> bool.
Variable dataset : Dataset.
Variable arrayjoin : option string.

Local Abbreviation operand :=
  (operand_builder is_function parse_function_to_expr QUOTED_LITERAL_RE_match).
Local Abbreviation conj_builder := (and_builder BooleanFunctions_AND).
Local Abbreviation disj_builder := (or_builder BooleanFunctions_OR).
Local Abbreviation unpack :=
  (unpack_array_condition_builder OPERATOR_TO_FUNCTION POSITIVE_OPERATORS).
Local Abbreviation simple := (simple_condition_builder OPERATOR_TO_FUNCTION).
Local Abbreviation parse :=
  (parse_conditions Expression_bool Expression_hash str is_condition operand
     conj_builder disj_builder unpack simple dataset arrayjoin).
Local Abbreviation compile conditions :=
  (parse_conditions_to_expr OPERATOR_TO_FUNCTION POSITIVE_OPERATORS
     BooleanFunctions_AND BooleanFunctions_OR str is_condition is_function
     parse_function_to_expr QUOTED_LITERAL_RE_match conditions dataset arrayjoin).

Lemma multi_expression_builder_nests (function : string)
    (first : Expression) (rest : list Expression) :
  multi_expression_builder (first :: rest) function
  = Ok (right_nested function first rest).
Proof.
  revert first. induction rest as [ | second rest IH ]; intros first.
  - reflexivity.
  - change (multi_expression_builder (first :: second :: rest) function)
      with (let* combined := multi_expression_builder (second :: rest) function in
            Ok (binary_condition None function first combined)).
    now rewrite IH.
Qed.

(** A top-level list compiles and hashes its sub-conditions one after the
    other; the distinct results are nested to the right under AND. *)
Lemma compile_list (conds : list PyVal) :
  compile (PyList conds)
  = let* compiled :=
      for_each (fun cond =>
                  let* r := parse cond 1%Z in
                  let* _ := hash_key Expression_hash r in
                  Ok r) conds in
    Ok match first_occurrences (omap id compiled) with
       | [] => None
       | first :: rest => Some (right_nested BooleanFunctions_AND first rest)
       end.
Proof.
  unfold parse_conditions_to_expr. destruct conds as [ | c conds ]; [ reflexivity | ].
  rewrite parse_conditions_top_level by reflexivity. cbn [iter bind].
  destruct (for_each _ (c :: conds)) as [ compiled | e ]; cbn [bind]; [ | reflexivity ].
  rewrite omap_if_s_Expression, omap_id_first_occurrences.
  destruct (first_occurrences (omap id compiled)) as [ | first rest ];
    [ reflexivity | ].
  unfold and_builder. now rewrite multi_expression_builder_nests.
Qed.

Lemma compile_top_level (conditions : PyVal) (conds : list PyVal)
    (compiled : list (option Expression)) :
  truth conditions = true ->
  iter conditions = Ok conds ->
  for_each (fun cond => parse cond 1%Z) conds = Ok compiled ->
  compile conditions
  = if forallb Expression_hashable (omap id compiled)
    then conj_builder (omap id (first_occurrences compiled))
    else Raise TypeError.
Proof.
  intros Hc Hiter Hsub. unfold parse_conditions_to_expr.
  rewrite parse_conditions_top_level by exact Hc.
  rewrite Hiter. cbn [bind].
  rewrite (for_each_checked _ (hash_key Expression_hash) conds compiled Hsub).
  pose proof (hash_keys_Expression compiled) as Hhash.
  destruct (for_each (hash_key Expression_hash) compiled) as [ units | e ];
    destruct (forallb Expression_hashable (omap id compiled));
    cbn [bind] in Hhash |- *; try discriminate Hhash.
  - now rewrite omap_if_s_Expression.
  - now injection Hhash as ->.
Qed.

(** C7: the AND and OR builders nest a non-empty list to the right with
    binary function calls, return the element of a one-element list as it
    is, and return [None] for the empty list. *)
Theorem and_or_builders_nest_to_the_right :
  conj_builder [] = Ok None
  /\ disj_builder [] = Ok None
  /\ (forall e, conj_builder [e] = Ok (Some e) /\ disj_builder [e] = Ok (Some e))
  /\ (forall first second rest,
         conj_builder (first :: second :: rest)
         = Ok (Some (binary_condition None BooleanFunctions_AND first
                       (right_nested BooleanFunctions_AND second rest)))
         /\ disj_builder (first :: second :: rest)
            = Ok (Some (binary_condition None BooleanFunctions_OR first
                          (right_nested BooleanFunctions_OR second rest))))
  /\ (forall first rest,
         conj_builder (first :: rest)
         = Ok (Some (right_nested BooleanFunctions_AND first rest))
         /\ disj_builder (first :: rest)
            = Ok (Some (right_nested BooleanFunctions_OR first rest))).
Proof.
  repeat split; try reflexivity;
    unfold and_builder, or_builder; now rewrite multi_expression_builder_nests.
Qed.

(** C8: [preprocess_literal], and with it the simple-condition builder,
    packs a list or tuple literal into a [tuple] call over one [Literal] per
    element exactly when the operator is IN or NOT IN, and leaves a scalar
    literal a [Literal] exactly when it is not; a list or tuple with another
    operator and a scalar with IN or NOT IN raise [AssertionError] in
    [preprocess_literal], so the builder raises and returns nothing. *)
Theorem list_literals_go_with_IN (lhs : Expression) (op : string) (literal : PyVal) :
  (forall items,
      literal = PyList items \/ literal = PyTuple items ->
      (op = "IN" \/ op = "NOT IN" ->
       preprocess_literal op literal
       = Ok (FunctionCall None "tuple" (map (Literal None) items)))
      /\ (op <> "IN" /\ op <> "NOT IN" ->
          preprocess_literal op literal = Raise AssertionError
          /\ exists e, simple lhs op literal = Raise e))
  /\ (is_list_or_tuple literal = false ->
      (op <> "IN" /\ op <> "NOT IN" ->
       preprocess_literal op literal = Ok (Literal None literal))
      /\ (op = "IN" \/ op = "NOT IN" ->
          preprocess_literal op literal = Raise AssertionError
          /\ exists e, simple lhs op literal = Raise e))
  /\ (forall comparison rhs,
         OPERATOR_TO_FUNCTION !! op = Some comparison ->
         preprocess_literal op literal = Ok rhs ->
         simple lhs op literal = Ok (binary_condition None comparison lhs rhs))
  /\ (forall e, simple lhs op literal = Ok e ->
         exists comparison rhs,
           OPERATOR_TO_FUNCTION !! op = Some comparison
           /\ preprocess_literal op literal = Ok rhs
           /\ e = binary_condition None comparison lhs rhs).
Proof.
  assert (Hraise : preprocess_literal op literal = Raise AssertionError ->
                   exists e, simple lhs op literal = Raise e).
  { intros Hp. unfold simple_condition_builder, operator_function.
    destruct (OPERATOR_TO_FUNCTION !! op); simpl; [ | eauto ].
    rewrite Hp. simpl. eauto. }
  split; [ | split; [ | split ] ].
  - intros items Hlit. split.
    + intros Hop. apply in_IN_NOT_IN_true in Hop.
      destruct Hlit as [ -> | -> ]; simpl; now rewrite Hop.
    + intros Hop. apply in_IN_NOT_IN_false in Hop.
      assert (Hp : preprocess_literal op literal = Raise AssertionError)
        by (destruct Hlit as [ -> | -> ]; simpl; now rewrite Hop).
      split; [ exact Hp | now apply Hraise ].
  - intros Hscalar. split.
    + intros Hop. apply in_IN_NOT_IN_false in Hop.
      destruct literal; simpl in *; try discriminate; now rewrite Hop.
    + intros Hop. apply in_IN_NOT_IN_true in Hop.
      assert (Hp : preprocess_literal op literal = Raise AssertionError)
        by (destruct literal; simpl in *; try discriminate; now rewrite Hop).
      split; [ exact Hp | now apply Hraise ].
  - intros comparison rhs Hcmp Hrhs.
    unfold simple_condition_builder, operator_function. now rewrite Hcmp, Hrhs.
  - intros e. unfold simple_condition_builder, operator_function.
    destruct (OPERATOR_TO_FUNCTION !! op) as [ comparison | ]; simpl; [ | discriminate ].
    destruct (preprocess_literal op literal) as [ rhs | ]; simpl; [ | discriminate ].
    intros [= <-]. eauto.
Qed.

Lemma unpacks_array_true (lhs lit : PyVal) :
  unpacks_array dataset arrayjoin lhs lit = true
  <-> exists name column,
        lhs = PyStr name
        /\ get_columns dataset !! name = Some column
        /\ is_Array (type column) = true
        /\ base_name column <> arrayjoin
        /\ is_list_or_tuple lit = false.
Proof.
  unfold unpacks_array. split.
  - destruct lhs as [ | | name | | ]; try discriminate.
    destruct (get_columns dataset !! name) as [ column | ] eqn:Hcol; [ | discriminate ].
    rewrite !andb_true_iff, !negb_true_iff, bool_decide_eq_false.
    intros [[Harr Hbase] Hlit]. exists name, column. auto.
  - intros (name & column & -> & -> & Harr & Hbase & Hlit).
    rewrite Harr, Hlit, bool_decide_eq_false_2 by exact Hbase. reflexivity.
Qed.

Lemma sort_IN_literal_keeps_kind (op : string) (rhs lit : PyVal) :
  sort_IN_literal op rhs = Ok lit -> is_list_or_tuple lit = is_list_or_tuple rhs.
Proof.
  unfold sort_IN_literal. destruct rhs as [ | | | | items ]; try (now intros [= <-]).
  destruct (in_IN_NOT_IN op); [ | now intros [= <-] ].
  destruct (sorted items); simpl; [ now intros [= <-] | discriminate ].
Qed.

Lemma sort_IN_literal_scalar (op : string) (rhs : PyVal) :
  is_list_or_tuple rhs = false -> sort_IN_literal op rhs = Ok rhs.
Proof. now destruct rhs. Qed.

Lemma unpacks_array_sorted (op : string) (lhs rhs lit : PyVal) :
  sort_IN_literal op rhs = Ok lit ->
  unpacks_array dataset arrayjoin lhs lit = unpacks_array dataset arrayjoin lhs rhs.
Proof.
  intros Hs. apply sort_IN_literal_keeps_kind in Hs. unfold unpacks_array.
  now rewrite Hs.
Qed.

(** C2 (amended): a simple condition on an array column other than the
    array-joined one, with a scalar right-hand side, goes to the
    array-unpack builder; for an operator of the mapping other than IN and
    NOT IN the builder returns [arrayExists] for a positive operator and
    [arrayAll] otherwise, over [x -> assumeNotNull(cmp(x, literal))] and the
    column; for an operator outside the mapping it raises [KeyError], and
    for IN or NOT IN [AssertionError]. Every other simple condition goes to
    the simple-condition builder, with the literal as [sort_IN_literal]
    returns it; so does one on an array column whose base name is the
    active array-join. *)
Theorem array_columns_are_unpacked
    (conditions : PyVal) (depth : Z) (lhs : PyVal) (op : string) (rhs : PyVal) :
  depth <> 0%Z ->
  truth conditions = true ->
  is_condition conditions = Ok true ->
  process_condition dataset conditions = Ok (lhs, op, rhs) ->
  (forall name column,
      lhs = PyStr name ->
      get_columns dataset !! name = Some column ->
      is_Array (type column) = true ->
      base_name column <> arrayjoin ->
      is_list_or_tuple rhs = false ->
      parse conditions depth
      = (let* column_expr := operand lhs in
         let* e := unpack column_expr op rhs in
         Ok (Some e))
      /\ forall column_expr,
          unpack column_expr op rhs
          = match OPERATOR_TO_FUNCTION !! op with
            | None => Raise KeyError
            | Some comparison =>
                if in_IN_NOT_IN op then Raise AssertionError
                else Ok (FunctionCall None
                           (if bool_decide (op ∈ POSITIVE_OPERATORS)
                            then "arrayExists" else "arrayAll")
                           [ Lambda None ["x"]
                               (FunctionCall None "assumeNotNull"
                                  [ FunctionCall None comparison
                                      [Argument None "x"; Literal None rhs] ]);
                             column_expr ])
            end)
  /\ (~ (exists name column,
           lhs = PyStr name
           /\ get_columns dataset !! name = Some column
           /\ is_Array (type column) = true
           /\ base_name column <> arrayjoin
           /\ is_list_or_tuple rhs = false) ->
      parse conditions depth
      = (let* lit := sort_IN_literal op rhs in
         let* lhs_expr := operand lhs in
         let* e := simple lhs_expr op lit in
         Ok (Some e)))
  /\ (forall name column,
         lhs = PyStr name ->
         get_columns dataset !! name = Some column ->
         base_name column = arrayjoin ->
         parse conditions depth
         = (let* lit := sort_IN_literal op rhs in
            let* lhs_expr := operand lhs in
            let* e := simple lhs_expr op lit in
            Ok (Some e))).
Proof.
  intros Hd Hc Hleaf Hproc.
  assert (Hparse : parse conditions depth
                   = (let* lit := sort_IN_literal op rhs in
                      if unpacks_array dataset arrayjoin lhs rhs
                      then (let* column_expr := operand lhs in
                            let* e := unpack column_expr op lit in Ok (Some e))
                      else (let* lhs_expr := operand lhs in
                            let* e := simple lhs_expr op lit in Ok (Some e)))).
  { rewrite parse_conditions_leaf by assumption.
    unfold parse_simple_condition. rewrite Hproc. simpl.
    destruct (sort_IN_literal op rhs) as [ lit | e ] eqn:Hs; simpl; [ | reflexivity ].
    now rewrite (unpacks_array_sorted op lhs rhs lit Hs). }
  assert (Hother : ~ (exists name column,
                         lhs = PyStr name
                         /\ get_columns dataset !! name = Some column
                         /\ is_Array (type column) = true
                         /\ base_name column <> arrayjoin
                         /\ is_list_or_tuple rhs = false) ->
                   parse conditions depth
                   = (let* lit := sort_IN_literal op rhs in
                      let* lhs_expr := operand lhs in
                      let* e := simple lhs_expr op lit in
                      Ok (Some e))).
  { intros Hno. rewrite Hparse.
    destruct (unpacks_array dataset arrayjoin lhs rhs) eqn:Hu; [ | reflexivity ].
    apply unpacks_array_true in Hu. contradiction. }
  split; [ | split ].
  - intros name column Hlhs Hcol Harr Hbase Hscalar. split.
    + rewrite Hparse, (sort_IN_literal_scalar op rhs Hscalar). simpl.
      assert (Hu : unpacks_array dataset arrayjoin lhs rhs = true)
        by (apply unpacks_array_true; eauto 10).
      now rewrite Hu.
    + intros column_expr. unfold unpack_array_condition_builder, operator_function.
      destruct (OPERATOR_TO_FUNCTION !! op) as [ comparison | ]; simpl; [ | reflexivity ].
      destruct rhs; try discriminate; simpl; now destruct (in_IN_NOT_IN op).
  - exact Hother.
  - intros name column Hlhs Hcol Hbase. apply Hother.
    intros (name' & column' & Hlhs' & Hcol' & _ & Hbase' & _).
    rewrite Hlhs in Hlhs'. injection Hlhs' as <-.
    rewrite Hcol in Hcol'. injection Hcol' as <-. contradiction.
Qed.

(** C1 (amended): a top-level call returns [None] for an empty or absent
    input; otherwise it compiles every sub-condition at depth 1 and inserts
    the results as keys of a dictionary, which raises [TypeError] when one of
    them is not hashable; when all of them are, the first occurrence of every
    distinct result is kept in the order of first occurrence (a result seen
    before is neither inserted again nor moved), the [None] results are
    dropped, and the rest goes to the AND builder, which gives [None] when
    nothing is left. A group at depth 1 hands every compiled element to the
    OR builder, duplicates included. *)
Theorem top_level_conditions_are_deduplicated :
  (forall conditions, truth conditions = false -> compile conditions = Ok None)
  /\ (forall conditions conds compiled,
         truth conditions = true ->
         iter conditions = Ok conds ->
         for_each (fun cond => parse cond 1%Z) conds = Ok compiled ->
         let kept := omap id (first_occurrences compiled) in
         compile conditions
         = (if forallb Expression_hashable (omap id compiled)
            then conj_builder kept
            else Raise TypeError)
         /\ NoDup kept
         /\ (forall e, e ∈ kept <-> Some e ∈ compiled)
         /\ (kept = [] -> compile conditions = Ok None))
  /\ (forall (results : list (option Expression)) (r : option Expression),
         first_occurrences (results ++ [r])
         = if decide (r ∈ results) then first_occurrences results
           else first_occurrences results ++ [r])
  /\ (forall group conds compiled,
         truth group = true ->
         is_condition group = Ok false ->
         iter group = Ok conds ->
         for_each (fun cond => parse cond 2%Z) conds = Ok compiled ->
         parse group 1%Z = disj_builder (omap id compiled))
  /\ (forall cond e,
         is_condition (PyList [cond; cond]) = Ok false ->
         parse cond 2%Z = Ok (Some e) ->
         parse (PyList [cond; cond]) 1%Z
         = Ok (Some (binary_condition None BooleanFunctions_OR e e))).
Proof.
  split; [ | split; [ | split; [ | split ] ] ].
  - intros conditions Hc. now apply parse_conditions_falsy.
  - intros conditions conds compiled Hc Hiter Hsub kept.
    pose proof (compile_top_level conditions conds compiled Hc Hiter Hsub) as Hcompile.
    assert (Hkept : forall e, e ∈ kept <-> Some e ∈ compiled).
    { intros e. unfold kept.
      now rewrite elem_of_omap_id, elem_of_first_occurrences. }
    split; [ exact Hcompile | ]. split; [ | split ].
    + apply NoDup_omap_id, NoDup_first_occurrences.
    + exact Hkept.
    + intros Hnil. rewrite Hcompile. fold kept. rewrite Hnil.
      assert (Hnone : omap id compiled = []).
      { destruct (omap id compiled) as [ | e rest ] eqn:Hsome; [ reflexivity | ].
        assert (He : e ∈ kept).
        { apply Hkept, elem_of_omap_id. rewrite Hsome. now left. }
        rewrite Hnil in He. now apply elem_of_nil in He. }
      now rewrite Hnone.
  - intros results r. apply first_occurrences_snoc.
  - intros group conds compiled Hc Hleaf Hiter Hsub.
    rewrite parse_conditions_group by assumption.
    rewrite Hiter. simpl. rewrite Hsub. simpl.
    now rewrite omap_if_s_Expression.
  - intros cond e Hleaf Hcond.
    rewrite parse_conditions_group by (auto; reflexivity).
    simpl. rewrite Hcond. reflexivity.
Qed.

Lemma unpacks_array_sequence (lhs : PyVal) (items : list PyVal) :
  unpacks_array dataset arrayjoin lhs (PyTuple items) = false.
Proof.
  unfold unpacks_array. destruct lhs as [ | | name | | ]; try reflexivity.
  destruct (get_columns dataset !! name); [ | reflexivity ].
  simpl. now rewrite andb_false_r.
Qed.

(** C3 (amended): when the operator is IN or NOT IN and the right-hand
    literal is a tuple of pairwise comparable values, the tuple is sorted
    before the condition is built (a list literal is left as it is): two
    such conditions on the same left-hand side whose tuples hold the same
    elements in different orders compile to the same result at every depth
    below the top level, and the pair compiles at the top level as the
    first alone does. The compiled condition is hashable exactly when the
    left-hand side and every value of the tuple are; the pair then compiles
    to it, one condition with no AND around it, and raises [TypeError]
    otherwise. *)
Theorem permuted_IN_tuples_collapse
    (c1 c2 lhs : PyVal) (op : string) (l1 l2 : list PyVal) :
  truth c1 = true -> truth c2 = true ->
  is_condition c1 = Ok true -> is_condition c2 = Ok true ->
  process_condition dataset c1 = Ok (lhs, op, PyTuple l1) ->
  process_condition dataset c2 = Ok (lhs, op, PyTuple l2) ->
  op = "IN" \/ op = "NOT IN" ->
  l1 ≡ₚ l2 ->
  (forall a b, a ∈ l1 -> b ∈ l1 -> exists r, py_lt a b = Ok r) ->
  exists s,
    sorted l1 = Ok s /\ sorted l2 = Ok s /\ s ≡ₚ l1
    /\ StronglySorted (fun a b => py_lt b a = Ok false) s
    /\ (forall depth, depth <> 0%Z ->
          parse c1 depth = parse c2 depth
          /\ parse c1 depth
             = (let* lhs_expr := operand lhs in
                let* e := simple lhs_expr op (PyTuple s) in
                Ok (Some e)))
    /\ compile (PyList [c1; c2]) = compile (PyList [c1])
    /\ (forall lhs_expr e,
          operand lhs = Ok lhs_expr ->
          parse c1 1%Z = Ok (Some e) ->
          Expression_hashable e
          = Expression_hashable lhs_expr && forallb hashable l1
          /\ compile (PyList [c1; c2])
             = if Expression_hashable e then Ok (Some e) else Raise TypeError).
Proof.
  intros Ht1 Ht2 Hleaf1 Hleaf2 Hp1 Hp2 Hop Hperm Hcmp.
  destruct (sorted_of_permutation l1 l2 Hcmp Hperm) as (s & Hs1 & Hs2 & Hps & Hsorted).
  apply in_IN_NOT_IN_true in Hop.
  assert (Hparse : forall c l depth,
             depth <> 0%Z -> truth c = true -> is_condition c = Ok true ->
             process_condition dataset c = Ok (lhs, op, PyTuple l) ->
             sorted l = Ok s ->
             parse c depth
             = (let* lhs_expr := operand lhs in
                let* e := simple lhs_expr op (PyTuple s) in
                Ok (Some e))).
  { intros c l depth Hd Ht Hleaf Hp Hs.
    rewrite parse_conditions_leaf by assumption.
    unfold parse_simple_condition. rewrite Hp. simpl. rewrite Hop, Hs. simpl.
    now rewrite unpacks_array_sequence. }
  assert (Hsame : parse c2 1%Z = parse c1 1%Z).
  { rewrite (Hparse c1 l1), (Hparse c2 l2) by (assumption || lia). reflexivity. }
  assert (Hpair : compile (PyList [c1; c2]) = compile (PyList [c1])).
  { rewrite !compile_list. cbn [for_each]. rewrite Hsame.
    destruct (parse c1 1%Z) as [ r | e ]; cbn [bind]; [ | reflexivity ].
    destruct (hash_key Expression_hash r) as [ [] | e ]; cbn [bind]; [ | reflexivity ].
    destruct r as [ e | ]; cbn [omap list_omap id first_occurrences List.filter];
      [ | reflexivity ].
    now rewrite bool_decide_eq_true_2 by reflexivity. }
  exists s. split; [ exact Hs1 | ]. split; [ exact Hs2 | ].
  split; [ exact Hps | ]. split; [ exact Hsorted | ].
  split; [ | split; [ exact Hpair | ] ].
  - intros depth Hd. split.
    + rewrite (Hparse c1 l1), (Hparse c2 l2) by assumption. reflexivity.
    + now apply (Hparse c1 l1).
  - intros lhs_expr e Hlhs He. split.
    + rewrite (Hparse c1 l1 1%Z) in He by (assumption || lia).
      rewrite Hlhs in He. cbn [bind] in He.
      unfold simple_condition_builder in He.
      destruct (operator_function OPERATOR_TO_FUNCTION op) as [ comparison | ];
        cbn [bind] in He; [ | discriminate ].
      unfold preprocess_literal in He. rewrite Hop in He. cbn [bind] in He.
      injection He as <-. cbn [binary_condition Expression_hashable forallb].
      rewrite hashable_literals, (forallb_Permutation hashable s l1 Hps).
      now rewrite andb_true_r.
    + rewrite Hpair, compile_list. cbn [for_each]. rewrite He. cbn [bind hash_key].
      unfold Expression_hash. destruct (Expression_hashable e); reflexivity.
Qed.

End ParseConditionsToExprFacts.

(** ** The simple pipeline *)

Section SimplePipelineFacts.
Variables Request Query Settings Runner QueryResult : Type.
Variable settings : Request -> Settings.
Variable entity_processors : list (EntityProcessor Request).
Variable plan_processors : list (PlanProcessor Query Settings).
Variable runner : Runner.
Variable build_plan :
  Request -> result (ClickhouseQueryPlan Query Settings Runner QueryResult).

Local Abbreviation state := (State Request Query Settings Runner QueryResult).
Local Abbreviation run := (execute settings entity_processors plan_processors runner build_plan).

Lemma for_in_cons {A} (body : A -> Action Request Query Settings Runner QueryResult unit)
    (p : A) (ps : list A) (s : state) :
  for_in body (p :: ps) s
  = match body p s with
    | (s1, Ok _) => for_in body ps s1
    | (s1, Raise e) => (s1, Raise e)
    end.
Proof. reflexivity. Qed.

Lemma for_in_nil {A} (body : A -> Action Request Query Settings Runner QueryResult unit)
    (s : state) :
  for_in body [] s = (s, Ok tt).
Proof. reflexivity. Qed.

Lemma call_entity_processor_eq (p : EntityProcessor Request) (s : state) :
  call_entity_processor p s
  = ({| request := (process_request p (request s)).1;
        plans := plans s;
        query_plan_attribute := query_plan_attribute s;
        calls := calls s ++ [CallEntityProcessor (entity_processor_name p)] |},
     match (process_request p (request s)).2 with
     | Some e => Raise e
     | None => Ok tt
     end).
Proof.
  unfold call_entity_processor, and_then, record_call. simpl.
  now destruct (process_request p (request s)).
Qed.

Lemma call_plan_processor_eq (ref : nat) (p : PlanProcessor Query Settings)
    (pl : ClickhouseQueryPlan Query Settings Runner QueryResult) (s : state) :
  plans s !! ref = Some pl ->
  call_plan_processor settings ref p s
  = ({| request := request s;
        plans := <[ref := {| query := (process_query p (query pl) (settings (request s))).1;
                             execution_strategy := execution_strategy pl |}]> (plans s);
        query_plan_attribute := query_plan_attribute s;
        calls := calls s ++ [CallPlanProcessor (plan_processor_name p)] |},
     match (process_query p (query pl) (settings (request s))).2 with
     | Some e => Raise e
     | None => Ok tt
     end).
Proof.
  intros Href. unfold call_plan_processor, and_then, record_call. simpl.
  rewrite Href. now destruct (process_query p (query pl) (settings (request s))).
Qed.

Lemma entity_processors_keep_plans (ps : list (EntityProcessor Request))
    (s s' : state) (r : result unit) :
  for_in call_entity_processor ps s = (s', r) ->
  plans s' = plans s /\ query_plan_attribute s' = query_plan_attribute s.
Proof.
  revert s. induction ps as [ | p ps IH ]; intros s.
  - simpl. unfold ret. intros [= <- <-]. auto.
  - rewrite for_in_cons, call_entity_processor_eq.
    destruct (process_request p (request s)).2 as [ e | ].
    + intros [= <- <-]. auto.
    + intros Hrest. apply IH in Hrest. exact Hrest.
Qed.

Lemma call_plan_processor_keeps_attribute (ref : nat)
    (p : PlanProcessor Query Settings) (s : state) :
  query_plan_attribute (call_plan_processor settings ref p s).1
  = query_plan_attribute s.
Proof.
  unfold call_plan_processor, and_then, record_call. simpl.
  destruct (plans s !! ref) as [ pl | ]; [ | reflexivity ].
  now destruct (process_query p (query pl) (settings (request s))).
Qed.

Lemma plan_processors_keep_attribute (ps : list (PlanProcessor Query Settings))
    (ref : nat) (s : state) :
  query_plan_attribute (for_in (call_plan_processor settings ref) ps s).1
  = query_plan_attribute s.
Proof.
  revert s. induction ps as [ | p ps IH ]; intros s; [ reflexivity | ].
  rewrite for_in_cons.
  pose proof (call_plan_processor_keeps_attribute ref p s) as Hstep.
  destruct (call_plan_processor settings ref p s) as [s1 [ [] | e ]];
    simpl in Hstep |- *; [ now rewrite IH | exact Hstep ].
Qed.

Lemma call_execution_strategy_keeps_attribute (ref : nat) (s : state) :
  query_plan_attribute (call_execution_strategy settings runner ref s).1
  = query_plan_attribute s.
Proof.
  unfold call_execution_strategy, and_then, record_call.
  now destruct (plans s !! ref).
Qed.

Lemma plan_eta (pl : ClickhouseQueryPlan Query Settings Runner QueryResult) :
  {| query := query pl; execution_strategy := execution_strategy pl |} = pl.
Proof. now destruct pl. Qed.

Lemma plan_processors_process (ps : list (PlanProcessor Query Settings))
    (ref : nat) (pl : ClickhouseQueryPlan Query Settings Runner QueryResult)
    (s s' : state) :
  plans s !! ref = Some pl ->
  for_in (call_plan_processor settings ref) ps s = (s', Ok tt) ->
  request s' = request s
  /\ query_plan_attribute s' = query_plan_attribute s
  /\ plans s'
     = <[ref := {| query := processed_query ps (query pl) (settings (request s));
                   execution_strategy := execution_strategy pl |}]> (plans s).
Proof.
  revert s pl. induction ps as [ | p ps IH ]; intros s pl Href.
  - simpl. unfold ret. intros [= <-]. unfold processed_query. simpl.
    rewrite plan_eta, list_insert_id by exact Href. auto.
  - rewrite for_in_cons, (call_plan_processor_eq ref p pl s Href).
    destruct (process_query p (query pl) (settings (request s))).2 as [ e | ];
      [ discriminate | ].
    intros Hrest. eapply IH in Hrest; simpl.
    2:{ apply list_lookup_insert_eq. now apply lookup_lt_Some in Href. }
    simpl in Hrest. destruct Hrest as (Hreq & Hattr & Hplans).
    rewrite Hreq, Hattr, Hplans, list_insert_insert_eq. auto.
Qed.

Lemma for_in_app {A} (body : A -> Action Request Query Settings Runner QueryResult unit)
    (ps1 ps2 : list A) (s : state) :
  for_in body (ps1 ++ ps2) s
  = match for_in body ps1 s with
    | (s1, Ok _) => for_in body ps2 s1
    | (s1, Raise e) => (s1, Raise e)
    end.
Proof.
  revert s. induction ps1 as [ | p ps1 IH ]; intros s; [ reflexivity | ].
  rewrite <- app_comm_cons, !for_in_cons.
  destruct (body p s) as [s1 [ [] | e ]]; [ apply IH | reflexivity ].
Qed.

Lemma plan_processors_return_Ok (ps : list (PlanProcessor Query Settings))
    (ref : nat) (pl : ClickhouseQueryPlan Query Settings Runner QueryResult)
    (s : state) :
  plans s !! ref = Some pl ->
  plan_processors_return ps (query pl) (settings (request s)) = true ->
  exists s', for_in (call_plan_processor settings ref) ps s = (s', Ok tt).
Proof.
  revert s pl. induction ps as [ | p ps IH ]; intros s pl Href Hret.
  - exists s. reflexivity.
  - rewrite for_in_cons, (call_plan_processor_eq ref p pl s Href).
    cbn [plan_processors_return] in Hret.
    destruct (process_query p (query pl) (settings (request s))) as [q [ e | ]];
      [ discriminate | ].
    cbn [fst snd].
    apply (IH _ {| query := q; execution_strategy := execution_strategy pl |}).
    + cbn [plans]. apply list_lookup_insert_eq. now apply lookup_lt_Some in Href.
    + exact Hret.
Qed.

Lemma execute_eq (eps : list (EntityProcessor Request))
    (pps : list (PlanProcessor Query Settings)) (s : state) :
  execute settings eps pps runner build_plan s
  = match _execute_entity_processors eps s with
    | (s1, Raise e) => (s1, Raise e)
    | (s1, Ok _) =>
        match build_plan (request s1) with
        | Raise e =>
            ({| request := request s1; plans := plans s1;
                query_plan_attribute := query_plan_attribute s1;
                calls := calls s1 ++ [CallBuildPlan] |}, Raise e)
        | Ok plan =>
            match _execute_query_plan_processors settings pps
                    (length (plans s1))
                    {| request := request s1; plans := plans s1 ++ [plan];
                       query_plan_attribute := Some (length (plans s1));
                       calls := calls s1 ++ [CallBuildPlan] |} with
            | (s3, Raise e) => (s3, Raise e)
            | (s3, Ok _) =>
                match query_plan_of s3 with
                | Ok ref => call_execution_strategy settings runner ref s3
                | Raise e => (s3, Raise e)
                end
            end
        end
    end.
Proof.
  unfold execute. unfold and_then at 1.
  destruct (_execute_entity_processors eps s) as [s1 [ [] | e ]];
    [ | reflexivity ].
  unfold and_then at 1. unfold assign_query_plan, and_then, record_call. simpl.
  destruct (build_plan (request s1)) as [ plan | e ]; [ | reflexivity ].
  simpl.
  destruct (_execute_query_plan_processors settings pps _ _)
    as [s3 [ [] | e ]]; [ | reflexivity ].
  unfold query_plan. now destruct (query_plan_of s3).
Qed.

(** C5: with entity processors [P1; P2] and plan processors [P3], [execute]
    calls P1, P2, [build_plan], P3 and the execution strategy, in this
    order and each once; the stage that raises is the last one called, and
    its exception is the outcome of [execute]. *)
Theorem pipeline_stages_run_in_order
    (P1 P2 : EntityProcessor Request) (P3 : PlanProcessor Query Settings)
    (s : state) :
  let outcome := execute settings [P1; P2] [P3] runner build_plan s in
  let r1 := process_request P1 (request s) in
  let r2 := process_request P2 r1.1 in
  let call1 := CallEntityProcessor (entity_processor_name P1) in
  let call2 := CallEntityProcessor (entity_processor_name P2) in
  let call3 := CallPlanProcessor (plan_processor_name P3) in
  match r1.2 with
  | Some e => calls outcome.1 = calls s ++ [call1] /\ outcome.2 = Raise e
  | None =>
      match r2.2 with
      | Some e => calls outcome.1 = calls s ++ [call1; call2] /\ outcome.2 = Raise e
      | None =>
          match build_plan r2.1 with
          | Raise e =>
              calls outcome.1 = calls s ++ [call1; call2; CallBuildPlan]
              /\ outcome.2 = Raise e
          | Ok plan =>
              let q := process_query P3 (query plan) (settings r2.1) in
              match q.2 with
              | Some e =>
                  calls outcome.1 = calls s ++ [call1; call2; CallBuildPlan; call3]
                  /\ outcome.2 = Raise e
              | None =>
                  calls outcome.1
                  = calls s ++ [call1; call2; CallBuildPlan; call3;
                                CallExecutionStrategy (length (plans s)) q.1]
                  /\ outcome.2 = execution_strategy plan q.1 (settings r2.1) runner
              end
          end
      end
  end.
Proof.
  cbn zeta. rewrite execute_eq.
  unfold _execute_entity_processors, _execute_query_plan_processors.
  rewrite for_in_cons, call_entity_processor_eq.
  destruct (process_request P1 (request s)) as [req1 [ e | ]];
    cbn [fst snd]; [ split; reflexivity | ].
  rewrite for_in_cons, call_entity_processor_eq.
  cbn [fst snd request plans calls query_plan_attribute].
  destruct (process_request P2 req1) as [req2 [ e | ]];
    cbn [fst snd request plans calls query_plan_attribute];
    [ rewrite <- app_assoc; split; reflexivity | ].
  rewrite for_in_nil. cbn [fst snd request plans calls query_plan_attribute].
  destruct (build_plan req2) as [ plan | e ];
    [ | cbn [fst snd calls]; rewrite <- !app_assoc; split; reflexivity ].
  rewrite for_in_cons.
  rewrite (call_plan_processor_eq _ _ plan)
    by (cbn [plans]; rewrite lookup_app_r by reflexivity; now rewrite Nat.sub_diag).
  cbn [fst snd request plans calls query_plan_attribute].
  destruct (process_query P3 (query plan) (settings req2)) as [q [ e | ]];
    cbn [fst snd calls]; [ rewrite <- !app_assoc; split; reflexivity | ].
  rewrite for_in_nil.
  unfold query_plan_of, call_execution_strategy, and_then, record_call.
  cbn [fst snd request plans calls query_plan_attribute].
  rewrite list_lookup_insert_eq by (rewrite length_app; simpl; lia).
  cbn [fst snd request plans calls query_plan_attribute query execution_strategy].
  rewrite <- !app_assoc. split; reflexivity.
Qed.

(** C9: after an [execute] that returns, the property [query_plan] gives
    the plan object the execution strategy was called on; the query of this
    plan is the query the strategy received, which is the query of the
    built plan as the plan processors left it. *)
Theorem query_plan_is_the_executed_plan (s s' : state) (res : QueryResult) :
  run s = (s', Ok res) ->
  exists ref plan built,
    query_plan_of s' = Ok ref
    /\ plans s' !! ref = Some plan
    /\ last (calls s') = Some (CallExecutionStrategy ref (query plan))
    /\ execution_strategy plan (query plan) (settings (request s')) runner = Ok res
    /\ build_plan (request s') = Ok built
    /\ execution_strategy plan = execution_strategy built
    /\ query plan
       = processed_query plan_processors (query built) (settings (request s')).
Proof.
  rewrite execute_eq.
  destruct (_execute_entity_processors entity_processors s) as [s1 [ [] | e ]] eqn:H1;
    [ | discriminate ].
  destruct (build_plan (request s1)) as [ built | e ] eqn:Hbuild; [ | discriminate ].
  destruct (_execute_query_plan_processors settings plan_processors _ _)
    as [s3 [ [] | e ]] eqn:H3; [ | discriminate ].
  unfold _execute_query_plan_processors in H3.
  eapply (plan_processors_process _ _ built) in H3.
  2:{ cbn [plans]. rewrite lookup_app_r by reflexivity. now rewrite Nat.sub_diag. }
  cbn [request plans query_plan_attribute] in H3.
  destruct H3 as (Hreq & Hattr & Hplans).
  unfold query_plan_of. rewrite Hattr.
  unfold call_execution_strategy, and_then, record_call.
  rewrite Hplans, list_lookup_insert_eq by (rewrite length_app; simpl; lia).
  cbn [query execution_strategy request].
  intros [= <- Hres]. cbn [query_plan_attribute plans calls request].
  rewrite Hattr. rewrite Hreq in *.
  exists (length (plans s1)),
    {| query := processed_query plan_processors (query built) (settings (request s1));
       execution_strategy := execution_strategy built |}, built.
  repeat split.
  - apply list_lookup_insert_eq. rewrite length_app. simpl. lia.
  - apply last_snoc.
  - exact Hres.
  - exact Hbuild.
Qed.

(** C10 (amended): a newly constructed pipeline has no [query_plan], and
    reading the property raises [AttributeError]; an [execute] that aborts
    in an entity processor or in [build_plan] leaves the attribute as it
    was, so that reading it still raises if it was unassigned before; once
    the entity processors and [build_plan] have returned, the attribute
    refers to the new plan. *)
Theorem query_plan_is_assigned_once_built :
  (forall r heap,
      query_plan_of (init r heap : state) = Raise AttributeError)
  /\ (forall s s1 e,
         _execute_entity_processors entity_processors s = (s1, Raise e) ->
         run s = (s1, Raise e)
         /\ query_plan_attribute s1 = query_plan_attribute s
         /\ (query_plan_attribute s = None ->
             query_plan_of s1 = Raise AttributeError))
  /\ (forall s s1 e,
         _execute_entity_processors entity_processors s = (s1, Ok tt) ->
         build_plan (request s1) = Raise e ->
         (run s).2 = Raise e
         /\ query_plan_attribute (run s).1 = query_plan_attribute s
         /\ (query_plan_attribute s = None ->
             query_plan_of (run s).1 = Raise AttributeError))
  /\ (forall s s1 built,
         _execute_entity_processors entity_processors s = (s1, Ok tt) ->
         build_plan (request s1) = Ok built ->
         query_plan_of (run s).1 = Ok (length (plans s))).
Proof.
  split; [ | split; [ | split ] ].
  - reflexivity.
  - intros s s1 e H1. rewrite execute_eq, H1.
    apply entity_processors_keep_plans in H1 as [_ Hattr].
    repeat split; [ exact Hattr | ].
    intros Hnone. unfold query_plan_of. now rewrite Hattr, Hnone.
  - intros s s1 e H1 Hbuild. rewrite execute_eq, H1, Hbuild.
    apply entity_processors_keep_plans in H1 as [_ Hattr].
    cbn [fst snd query_plan_attribute]. repeat split; [ exact Hattr | ].
    intros Hnone. unfold query_plan_of. cbn [query_plan_attribute].
    now rewrite Hattr, Hnone.
  - intros s s1 built H1 Hbuild. rewrite execute_eq, H1, Hbuild.
    apply entity_processors_keep_plans in H1 as [Hplans _].
    rewrite Hplans. unfold _execute_query_plan_processors.
    match goal with
    | |- context [for_in ?body ?ps ?s2] =>
        pose proof (plan_processors_keep_attribute ps (length (plans s)) s2) as H3;
        destruct (for_in body ps s2) as [s3 [ [] | e ]]
    end; cbn [fst snd query_plan_attribute] in H3 |- *.
    + assert (Hq : query_plan_of s3 = Ok (length (plans s)))
        by (unfold query_plan_of; now rewrite H3).
      rewrite Hq. unfold query_plan_of.
      now rewrite call_execution_strategy_keeps_attribute, H3.
    + unfold query_plan_of. now rewrite H3.
Qed.

End SimplePipelineFacts.

(** ** The theorems at work on the sample dataset and pipeline *)

Section SampleConditions.
Import Sample.

Lemma top_level_conditions_are_deduplicated_witness :
  compile (PyList []) None = Ok None
  /\ compile PyNone None = Ok None
  /\ compile (PyList [cond "a" "=" (PyInt 1); cond "b" "=" (PyInt 2);
                      cond "a" "=" (PyInt 1)]) None
     = Ok (Some (FunctionCall None "and"
                   [equals "a" (PyInt 1); equals "b" (PyInt 2)]))
  /\ parse (PyList [cond "a" "=" (PyInt 1); cond "a" "=" (PyInt 1)]) None 1
     = Ok (Some (FunctionCall None "or"
                   [equals "a" (PyInt 1); equals "a" (PyInt 1)])).
Proof.
  destruct (top_level_conditions_are_deduplicated OPERATOR_TO_FUNCTION
              POSITIVE_OPERATORS "and" "or" str is_condition is_function
              parse_function_to_expr QUOTED_LITERAL_RE_match dataset None)
    as (Hempty & Htop & _ & _ & Hdup).
  split; [ apply Hempty; reflexivity | ].
  split; [ apply Hempty; reflexivity | ].
  split.
  - destruct (Htop (PyList [cond "a" "=" (PyInt 1); cond "b" "=" (PyInt 2);
                            cond "a" "=" (PyInt 1)])
                [cond "a" "=" (PyInt 1); cond "b" "=" (PyInt 2); cond "a" "=" (PyInt 1)]
                [Some (equals "a" (PyInt 1)); Some (equals "b" (PyInt 2));
                 Some (equals "a" (PyInt 1))]
                eq_refl eq_refl eq_refl) as (Hcompile & _).
    exact Hcompile.
  - apply (Hdup (cond "a" "=" (PyInt 1)) (equals "a" (PyInt 1))); reflexivity.
Defined.

Lemma array_columns_are_unpacked_witness :
  parse (cond "tags.key" "=" (PyStr "x")) None 1
  = Ok (Some (FunctionCall None "arrayExists"
                [ Lambda None ["x"]
                    (FunctionCall None "assumeNotNull"
                       [ FunctionCall None "equals"
                           [Argument None "x"; Literal None (PyStr "x")] ]);
                  Column None "tags.key" None ]))
  /\ parse (cond "tags.key" "!=" (PyStr "x")) None 1
     = Ok (Some (FunctionCall None "arrayAll"
                   [ Lambda None ["x"]
                       (FunctionCall None "assumeNotNull"
                          [ FunctionCall None "notEquals"
                              [Argument None "x"; Literal None (PyStr "x")] ]);
                     Column None "tags.key" None ]))
  /\ parse (cond "tags.key" "=" (PyStr "x")) (Some "tags") 1
     = Ok (Some (equals "tags.key" (PyStr "x")))
  /\ parse (cond "a" "=" (PyInt 1)) None 1 = Ok (Some (equals "a" (PyInt 1))).
Proof.
  pose (column := {| type := Array (Scalar "String"); base_name := Some "tags" |}).
  assert (Hne : (1 <> 0)%Z) by lia.
  split; [ | split; [ | split ] ].
  - destruct (array_columns_are_unpacked OPERATOR_TO_FUNCTION POSITIVE_OPERATORS
                "and" "or" str is_condition is_function parse_function_to_expr
                QUOTED_LITERAL_RE_match dataset None
                (cond "tags.key" "=" (PyStr "x")) 1 (PyStr "tags.key") "=" (PyStr "x")
                Hne eq_refl eq_refl eq_refl) as (Hunpack & _ & _).
    destruct (Hunpack "tags.key" column eq_refl eq_refl eq_refl) as (Hparse & _);
      [ discriminate | reflexivity | ].
    exact Hparse.
  - destruct (array_columns_are_unpacked OPERATOR_TO_FUNCTION POSITIVE_OPERATORS
                "and" "or" str is_condition is_function parse_function_to_expr
                QUOTED_LITERAL_RE_match dataset None
                (cond "tags.key" "!=" (PyStr "x")) 1 (PyStr "tags.key") "!=" (PyStr "x")
                Hne eq_refl eq_refl eq_refl) as (Hunpack & _ & _).
    destruct (Hunpack "tags.key" column eq_refl eq_refl eq_refl) as (Hparse & _);
      [ discriminate | reflexivity | ].
    exact Hparse.
  - destruct (array_columns_are_unpacked OPERATOR_TO_FUNCTION POSITIVE_OPERATORS
                "and" "or" str is_condition is_function parse_function_to_expr
                QUOTED_LITERAL_RE_match dataset (Some "tags")
                (cond "tags.key" "=" (PyStr "x")) 1 (PyStr "tags.key") "=" (PyStr "x")
                Hne eq_refl eq_refl eq_refl) as (_ & _ & Hjoined).
    exact (Hjoined "tags.key" column eq_refl eq_refl eq_refl).
  - destruct (array_columns_are_unpacked OPERATOR_TO_FUNCTION POSITIVE_OPERATORS
                "and" "or" str is_condition is_function parse_function_to_expr
                QUOTED_LITERAL_RE_match dataset None
                (cond "a" "=" (PyInt 1)) 1 (PyStr "a") "=" (PyInt 1)
                Hne eq_refl eq_refl eq_refl) as (_ & Hsimple & _).
    apply Hsimple.
    intros (name & col & [= <-] & Hcol & Harr & _).
    vm_compute in Hcol. injection Hcol as <-. discriminate Harr.
Defined.

(** The claim C1 as stated fails when a compiled result is not hashable:
    the condition compiles, to an [in] over a tuple that holds a list, and
    the top-level call raises [TypeError] where the claim has it return
    this one condition. *)
Lemma unhashable_condition_is_not_deduplicated :
  parse (cond "a" "IN" (PyList [PyList [PyInt 1]])) None 1
  = Ok (Some (FunctionCall None "in"
                [ Column None "a" None;
                  FunctionCall None "tuple" [Literal None (PyList [PyInt 1])] ]))
  /\ compile (PyList [cond "a" "IN" (PyList [PyList [PyInt 1]])]) None
     = Raise TypeError.
Proof. repeat split. Qed.

(** The claim C2 as stated fails for IN with a scalar: the condition is on
    an array column that is not array-joined, IN is a positive operator,
    and no [arrayExists] comes back. *)
Lemma scalar_IN_on_array_column_raises :
  is_condition (cond "tags.key" "IN" (PyStr "x")) = Ok true
  /\ process_condition dataset (cond "tags.key" "IN" (PyStr "x"))
     = Ok (PyStr "tags.key", "IN", PyStr "x")
  /\ get_columns dataset !! "tags.key"
     = Some {| type := Array (Scalar "String"); base_name := Some "tags" |}
  /\ "IN" ∈ POSITIVE_OPERATORS
  /\ parse (cond "tags.key" "IN" (PyStr "x")) None 1 = Raise AssertionError
  /\ compile (PyList [cond "tags.key" "IN" (PyStr "x")]) None = Raise AssertionError.
Proof.
  repeat split; try reflexivity.
  unfold POSITIVE_OPERATORS. rewrite !elem_of_cons. tauto.
Qed.

Lemma permuted_IN_tuples_collapse_witness :
  compile (PyList [cond "a" "IN" (PyTuple [PyInt 3; PyInt 1; PyInt 2]);
                   cond "a" "IN" (PyTuple [PyInt 1; PyInt 2; PyInt 3])]) None
  = Ok (Some (FunctionCall None "in"
                [ Column None "a" None;
                  FunctionCall None "tuple"
                    [Literal None (PyInt 1); Literal None (PyInt 2);
                     Literal None (PyInt 3)] ])).
Proof.
  assert (Hperm : [PyInt 3; PyInt 1; PyInt 2] ≡ₚ [PyInt 1; PyInt 2; PyInt 3]).
  { etransitivity; [ apply Permutation_swap | ].
    apply Permutation_skip, Permutation_swap. }
  assert (Hcmp : forall a b, a ∈ [PyInt 3; PyInt 1; PyInt 2] ->
                   b ∈ [PyInt 3; PyInt 1; PyInt 2] -> exists r, py_lt a b = Ok r).
  { intros a b Ha Hb. rewrite !elem_of_cons, elem_of_nil in Ha, Hb.
    destruct Ha as [ -> | [ -> | [ -> | [] ] ] ];
      destruct Hb as [ -> | [ -> | [ -> | [] ] ] ]; eexists; reflexivity. }
  destruct (permuted_IN_tuples_collapse OPERATOR_TO_FUNCTION POSITIVE_OPERATORS
              "and" "or" str is_condition is_function parse_function_to_expr
              QUOTED_LITERAL_RE_match dataset None
              (cond "a" "IN" (PyTuple [PyInt 3; PyInt 1; PyInt 2]))
              (cond "a" "IN" (PyTuple [PyInt 1; PyInt 2; PyInt 3]))
              (PyStr "a") "IN" [PyInt 3; PyInt 1; PyInt 2] [PyInt 1; PyInt 2; PyInt 3]
              eq_refl eq_refl eq_refl eq_refl eq_refl eq_refl
              (or_introl eq_refl) Hperm Hcmp)
    as (s & _ & _ & _ & _ & _ & _ & Hone).
  destruct (Hone (Column None "a" None)
              (FunctionCall None "in"
                 [ Column None "a" None;
                   FunctionCall None "tuple"
                     [Literal None (PyInt 1); Literal None (PyInt 2);
                      Literal None (PyInt 3)] ])
              eq_refl eq_refl) as (_ & Hpair).
  exact Hpair.
Defined.

(** The claim C3 as stated fails for list literals: they are ordered
    collections, they are not sorted, and two IN conditions whose lists are
    permutations of each other stay two conditions. *)
Lemma permuted_IN_lists_stay_apart :
  parse (cond "a" "IN" (PyList [PyInt 3; PyInt 1; PyInt 2])) None 1
  = Ok (Some (FunctionCall None "in"
                [ Column None "a" None;
                  FunctionCall None "tuple"
                    [Literal None (PyInt 3); Literal None (PyInt 1);
                     Literal None (PyInt 2)] ]))
  /\ parse (cond "a" "IN" (PyList [PyInt 1; PyInt 2; PyInt 3])) None 1
     = Ok (Some (FunctionCall None "in"
                   [ Column None "a" None;
                     FunctionCall None "tuple"
                       [Literal None (PyInt 1); Literal None (PyInt 2);
                        Literal None (PyInt 3)] ]))
  /\ compile (PyList [cond "a" "IN" (PyList [PyInt 3; PyInt 1; PyInt 2]);
                      cond "a" "IN" (PyList [PyInt 1; PyInt 2; PyInt 3])]) None
     = Ok (Some (FunctionCall None "and"
                   [ FunctionCall None "in"
                       [ Column None "a" None;
                         FunctionCall None "tuple"
                           [Literal None (PyInt 3); Literal None (PyInt 1);
                            Literal None (PyInt 2)] ];
                     FunctionCall None "in"
                       [ Column None "a" None;
                         FunctionCall None "tuple"
                           [Literal None (PyInt 1); Literal None (PyInt 2);
                            Literal None (PyInt 3)] ] ])).
Proof. repeat split. Qed.

Lemma triple_is_a_leaf_below_top_level_witness :
  parse (cond "a" "=" (PyInt 1)) None 2 = Ok (Some (equals "a" (PyInt 1))).
Proof.
  assert (Hne : (2 <> 0)%Z) by lia.
  destruct (triple_is_a_leaf_below_top_level Expression_bool Expression_hash
              str is_condition
              (operand_builder is_function parse_function_to_expr QUOTED_LITERAL_RE_match)
              (and_builder "and") (or_builder "or")
              (unpack_array_condition_builder OPERATOR_TO_FUNCTION POSITIVE_OPERATORS)
              (simple_condition_builder OPERATOR_TO_FUNCTION)
              dataset None (cond "a" "=" (PyInt 1)) 2 Hne eq_refl eq_refl)
    as (Hleaf & _).
  exact Hleaf.
Defined.

(** The claim C4 as stated fails at depth 0: a top-level triple is iterated
    over like any sequence of sub-conditions, and its first element, the
    string [a], is rejected two levels down. *)
Lemma top_level_triple_is_not_a_leaf :
  is_condition (cond "a" "=" (PyInt 1)) = Ok true
  /\ parse_simple_condition
       (operand_builder is_function parse_function_to_expr QUOTED_LITERAL_RE_match)
       (unpack_array_condition_builder OPERATOR_TO_FUNCTION POSITIVE_OPERATORS)
       (simple_condition_builder OPERATOR_TO_FUNCTION)
       dataset None (cond "a" "=" (PyInt 1))
     = Ok (Some (equals "a" (PyInt 1)))
  /\ parse (cond "a" "=" (PyInt 1)) None 0 = Raise (InvalidConditionException "a")
  /\ compile (cond "a" "=" (PyInt 1)) None = Raise (InvalidConditionException "a").
Proof. repeat split. Qed.

Lemma invalid_condition_beyond_depth_1_witness :
  parse (PyList [cond "a" "=" (PyInt 1)]) None 2
  = Raise (InvalidConditionException "[('a', '=', 1)]")
  /\ compile (PyList [PyList [PyList [cond "a" "=" (PyInt 1)]]]) None
     = Raise (InvalidConditionException "[('a', '=', 1)]").
Proof.
  assert (Hlt : (1 < 2)%Z) by lia.
  destruct (invalid_condition_beyond_depth_1 Expression_bool Expression_hash
              str is_condition
              (operand_builder is_function parse_function_to_expr QUOTED_LITERAL_RE_match)
              (and_builder "and") (or_builder "or")
              (unpack_array_condition_builder OPERATOR_TO_FUNCTION POSITIVE_OPERATORS)
              (simple_condition_builder OPERATOR_TO_FUNCTION)
              dataset None) as (Hdeep & Hnested).
  split.
  - exact (Hdeep (PyList [cond "a" "=" (PyInt 1)]) 2 Hlt eq_refl eq_refl).
  - exact (Hnested (PyList [cond "a" "=" (PyInt 1)]) eq_refl eq_refl eq_refl).
Defined.

Lemma list_literals_go_with_IN_witness :
  preprocess_literal "IN" (PyTuple [PyInt 1; PyInt 2])
  = Ok (FunctionCall None "tuple" [Literal None (PyInt 1); Literal None (PyInt 2)])
  /\ preprocess_literal "=" (PyList [PyInt 1; PyInt 2]) = Raise AssertionError
  /\ preprocess_literal "NOT IN" (PyInt 1) = Raise AssertionError
  /\ simple_condition_builder OPERATOR_TO_FUNCTION (Column None "a" None) "="
       (PyInt 1)
     = Ok (equals "a" (PyInt 1)).
Proof.
  assert (Hne : "=" <> "IN" /\ "=" <> "NOT IN") by (split; discriminate).
  split; [ | split; [ | split ] ].
  - destruct (list_literals_go_with_IN OPERATOR_TO_FUNCTION (Column None "a" None)
                "IN" (PyTuple [PyInt 1; PyInt 2])) as (Hseq & _).
    destruct (Hseq [PyInt 1; PyInt 2] (or_intror eq_refl)) as (Hin & _).
    exact (Hin (or_introl eq_refl)).
  - destruct (list_literals_go_with_IN OPERATOR_TO_FUNCTION (Column None "a" None)
                "=" (PyList [PyInt 1; PyInt 2])) as (Hseq & _).
    destruct (Hseq [PyInt 1; PyInt 2] (or_introl eq_refl)) as (_ & Hother).
    exact (proj1 (Hother Hne)).
  - destruct (list_literals_go_with_IN OPERATOR_TO_FUNCTION (Column None "a" None)
                "NOT IN" (PyInt 1)) as (_ & Hscalar & _).
    destruct (Hscalar eq_refl) as (_ & Hin).
    exact (proj1 (Hin (or_intror eq_refl))).
  - destruct (list_literals_go_with_IN OPERATOR_TO_FUNCTION (Column None "a" None)
                "=" (PyInt 1)) as (_ & _ & Hbuilt & _).
    exact (Hbuilt "equals" (Literal None (PyInt 1)) eq_refl eq_refl).
Defined.

End SampleConditions.

Section SamplePipelineRuns.
Import SamplePipeline.

Lemma query_plan_is_the_executed_plan_witness :
  exists ref plan built,
    query_plan_of (execute build_plan fresh).1 = Ok ref
    /\ plans (execute build_plan fresh).1 !! ref = Some plan
    /\ last (calls (execute build_plan fresh).1)
       = Some (CallExecutionStrategy ref (query plan))
    /\ execution_strategy plan (query plan) tt tt
       = Ok ["built"; "P3"; "executed"]
    /\ build_plan (request (execute build_plan fresh).1) = Ok built
    /\ execution_strategy plan = execution_strategy built
    /\ query plan = processed_query [P3] (query built) tt.
Proof.
  exact (query_plan_is_the_executed_plan nat (list string) unit unit (list string)
           (fun _ => tt) [P1; P2] [P3] tt build_plan fresh
           (execute build_plan fresh).1 ["built"; "P3"; "executed"] eq_refl).
Defined.

Lemma query_plan_is_assigned_once_built_witness :
  query_plan_of fresh = Raise AttributeError
  /\ query_plan_of (execute build_plan (init 1%nat [])).1 = Raise AttributeError
  /\ query_plan_of (execute refuse_plan fresh).1 = Raise AttributeError
  /\ query_plan_of (execute build_plan fresh).1 = Ok 0%nat.
Proof.
  destruct (query_plan_is_assigned_once_built nat (list string) unit unit (list string)
              (fun _ => tt) [P1; P2] [P3] tt build_plan)
    as (Hnew & Hentity & _ & Hbuilt).
  destruct (query_plan_is_assigned_once_built nat (list string) unit unit (list string)
              (fun _ => tt) [P1; P2] [P3] tt refuse_plan)
    as (_ & _ & Hrefused & _).
  split; [ exact (Hnew 0%nat []) | ]. split; [ | split ].
  - destruct (Hentity (init 1%nat [])
                (_execute_entity_processors [P1; P2] (init 1%nat [])).1
                (OtherException "processed") eq_refl) as (_ & _ & Hraise).
    exact (Hraise eq_refl).
  - destruct (Hrefused fresh (_execute_entity_processors [P1; P2] fresh).1
                (OtherException "no plan") eq_refl eq_refl) as (_ & _ & Hraise).
    exact (Hraise eq_refl).
  - exact (Hbuilt fresh (_execute_entity_processors [P1; P2] fresh).1
             _ eq_refl eq_refl).
Defined.

(** The claim C10 as stated fails on a pipeline that is executed again: the
    second [execute] aborts in the entity processor P1, and the property
    still returns the plan of the first. *)
Lemma aborted_execute_keeps_the_earlier_plan :
  (execute build_plan fresh).2 = Ok ["built"; "P3"; "executed"]
  /\ _execute_entity_processors [P1; P2] (execute build_plan fresh).1
     = ((execute build_plan (execute build_plan fresh).1).1,
        Raise (OtherException "processed"))
  /\ (execute build_plan (execute build_plan fresh).1).2
     = Raise (OtherException "processed")
  /\ query_plan_of (execute build_plan (execute build_plan fresh).1).1 = Ok 0%nat.
Proof. repeat split. Qed.

End SamplePipelineRuns.

(** * Further properties of the condition compiler *)

Section ParseConditionsMore.
Context {TExpression : Type} `{EqDecision TExpression}.
Variable bool_of : TExpression -> bool.
Variable hash_of : TExpression -> result unit.
Variable str : PyVal -> string.
Variable is_condition : PyVal -> result bool.
Variable operand_builder : PyVal -> result TExpression.
Variable and_builder : list TExpression -> result (option TExpression).
Variable or_builder : list TExpression -> result (option TExpression).
Variable unpack_array_condition_builder :
  TExpression -> string -> PyVal -> result TExpression.
Variable simple_condition_builder :
  TExpression -> string -> PyVal -> result TExpression.
Variable dataset : Dataset.
Variable array_join : option string.

Local Abbreviation parse :=
  (parse_conditions bool_of hash_of str is_condition operand_builder and_builder
     or_builder unpack_array_condition_builder simple_condition_builder
     dataset array_join).

(** X1: a sub-condition that already stands in the top-level list changes
    nothing when it is added at the end, whatever the builders are and
    whether the list compiles or raises. *)
Theorem repeated_condition_changes_nothing (conds : list PyVal) (c : PyVal) :
  c ∈ conds ->
  parse (PyList (conds ++ [c])) 0%Z = parse (PyList conds) 0%Z.
Proof.
  intros Hc.
  assert (Hne : conds <> []) by (intros ->; now apply elem_of_nil in Hc).
  rewrite !parse_conditions_top_level.
  2:{ destruct conds; [ contradiction | reflexivity ]. }
  2:{ destruct conds; reflexivity. }
  cbn [iter bind]. rewrite for_each_app.
  destruct (for_each _ conds) as [ compiled | e ] eqn:Hsub;
    cbn [bind]; [ | reflexivity ].
  destruct (for_each_elem_of _ conds compiled c Hsub Hc) as (r & Hr & Hin).
  cbn [for_each]. rewrite Hr. cbn [bind].
  rewrite first_occurrences_snoc. now rewrite decide_True.
Qed.

(** X2: at the top level the sub-conditions are compiled, and the result of
    each is hashed, from left to right, and the first exception decides the
    outcome: when the sub-conditions before [c] compile to hashable results
    and [c] raises, or compiles to a result whose hash raises, the whole
    call raises this exception, whatever comes after [c]. Inside a group
    nothing is hashed, and the first sub-condition that raises decides. *)
Theorem first_failing_condition_decides
    (before after : list PyVal) (c : PyVal) (e : Exception) :
  (forall compiled,
      for_each (fun cond =>
                  let* r := parse cond 1%Z in
                  let* _ := hash_key hash_of r in
                  Ok r) before = Ok compiled ->
      (parse c 1%Z = Raise e
       \/ exists r, parse c 1%Z = Ok r /\ hash_key hash_of r = Raise e) ->
      parse (PyList (before ++ c :: after)) 0%Z = Raise e)
  /\ (forall compiled,
         is_condition (PyList (before ++ c :: after)) = Ok false ->
         for_each (fun cond => parse cond 2%Z) before = Ok compiled ->
         parse c 2%Z = Raise e ->
         parse (PyList (before ++ c :: after)) 1%Z = Raise e).
Proof.
  assert (Htruth : truth (PyList (before ++ c :: after)) = true).
  { simpl. rewrite length_app. simpl. now rewrite Nat.add_succ_r. }
  split.
  - intros compiled Hbefore Hc.
    rewrite parse_conditions_top_level by exact Htruth.
    cbn [iter bind]. rewrite for_each_app, Hbefore. cbn [bind for_each].
    destruct Hc as [ Hc | (r & Hc & Hr) ]; rewrite Hc; cbn [bind];
      [ reflexivity | now rewrite Hr ].
  - intros compiled Hleaf Hbefore Hc.
    rewrite parse_conditions_group by assumption.
    simpl. rewrite for_each_app, Hbefore. simpl. now rewrite Hc.
Qed.

(** X3: conditions that are no sequence are rejected at the top level: a
    non-zero integer cannot be iterated over and raises [TypeError]; a
    non-empty string is taken character by character, and its first
    character, itself no condition, raises [InvalidConditionException]. *)
Theorem scalar_conditions_are_rejected :
  (forall z, z <> 0%Z -> parse (PyInt z) 0%Z = Raise TypeError)
  /\ (forall c rest,
         is_condition (PyStr (String c EmptyString)) = Ok false ->
         parse (PyStr (String c rest)) 0%Z
         = Raise (InvalidConditionException (str (PyStr (String c EmptyString))))).
Proof.
  split.
  - intros z Hz. rewrite parse_conditions_top_level; [ reflexivity | ].
    simpl. apply Z.eqb_neq in Hz. now rewrite Hz.
  - intros c rest Hleaf.
    rewrite parse_conditions_top_level by reflexivity. simpl.
    rewrite parse_conditions_group by (auto; reflexivity). simpl.
    rewrite parse_conditions_too_deep by (auto; lia). reflexivity.
Qed.

End ParseConditionsMore.

Lemma substring_0_app (text rest : string) :
  substring 0 (String.length text) (String.append text rest) = text.
Proof. induction text as [ | c text IH ]; simpl; [ now destruct rest | now rewrite IH ]. Qed.

Lemma length_append_one (text : string) (close : ascii) :
  String.length (String.append text (String close EmptyString))
  = Datatypes.S (String.length text).
Proof. induction text as [ | c text IH ]; simpl; [ reflexivity | now rewrite IH ]. Qed.

Lemma strip_ends_quoted (open close : ascii) (text : string) :
  strip_ends (String open (String.append text (String close EmptyString))) = text.
Proof.
  unfold strip_ends. cbn [String.length]. rewrite length_append_one.
  replace (Datatypes.S (Datatypes.S (String.length text)) - 2)%nat
    with (String.length text) by lia.
  cbn [substring]. apply substring_0_app.
Qed.

Section ParseConditionsToExprMore.
Variable OPERATOR_TO_FUNCTION : gmap string string.
Variable POSITIVE_OPERATORS : list string.
Variable BooleanFunctions_AND BooleanFunctions_OR : string.
Variable str : PyVal -> string.
Variable is_condition : PyVal -> result bool.
Variable is_function : PyVal -> Z -> result bool.
Variable parse_function_to_expr : PyVal -> result Expression.
Variable QUOTED_LITERAL_RE_match : string -> bool.
Variable dataset : Dataset.
Variable arrayjoin : option string.

Local Abbreviation operand :=
  (operand_builder is_function parse_function_to_expr QUOTED_LITERAL_RE_match).
Local Abbreviation conj_builder := (and_builder BooleanFunctions_AND).
Local Abbreviation disj_builder := (or_builder BooleanFunctions_OR).
Local Abbreviation unpack :=
  (unpack_array_condition_builder OPERATOR_TO_FUNCTION POSITIVE_OPERATORS).
Local Abbreviation simple := (simple_condition_builder OPERATOR_TO_FUNCTION).
Local Abbreviation leaf :=
  (parse_simple_condition operand unpack simple dataset arrayjoin).
Local Abbreviation parse :=
  (parse_conditions Expression_bool Expression_hash str is_condition operand
     conj_builder disj_builder unpack simple dataset arrayjoin).
Local Abbreviation compile conditions :=
  (parse_conditions_to_expr OPERATOR_TO_FUNCTION POSITIVE_OPERATORS
     BooleanFunctions_AND BooleanFunctions_OR str is_condition is_function
     parse_function_to_expr QUOTED_LITERAL_RE_match conditions dataset arrayjoin).

Lemma compile_compiled_list (conds : list PyVal)
    (compiled : list (option Expression)) :
  for_each (fun cond => parse cond 1%Z) conds = Ok compiled ->
  compile (PyList conds)
  = if forallb Expression_hashable (omap id compiled)
    then Ok match first_occurrences (omap id compiled) with
            | [] => None
            | first :: rest => Some (right_nested BooleanFunctions_AND first rest)
            end
    else Raise TypeError.
Proof.
  intros Hsub.
  rewrite compile_list, (for_each_checked _ (hash_key Expression_hash) conds compiled Hsub).
  pose proof (hash_keys_Expression compiled) as Hhash.
  destruct (for_each (hash_key Expression_hash) compiled) as [ units | e ];
    destruct (forallb Expression_hashable (omap id compiled));
    cbn [bind] in Hhash |- *; try discriminate Hhash;
    [ reflexivity | now injection Hhash as -> ].
Qed.

(** X4: an empty sub-condition (an empty list, [None], ...) in the
    top-level list is ignored: the list compiles to what it compiles to
    without it, and a list of empty sub-conditions only compiles to [None]. *)
Theorem empty_conditions_are_ignored (before after : list PyVal) (empty : PyVal) :
  truth empty = false ->
  compile (PyList (before ++ empty :: after)) = compile (PyList (before ++ after)).
Proof.
  intros Hempty. rewrite !compile_list, !for_each_app. cbn [for_each].
  rewrite parse_conditions_falsy by exact Hempty. cbn [bind hash_key].
  destruct (for_each _ before) as [ c1 | e ]; cbn [bind]; [ | reflexivity ].
  destruct (for_each _ after) as [ c2 | e ]; cbn [bind]; [ | reflexivity ].
  now rewrite !omap_app.
Qed.

(** X5: a group that holds one simple condition compiles to what the
    condition alone compiles to: no [OR] is put around it. *)
Theorem single_condition_group_is_the_condition (c : PyVal) :
  truth c = true ->
  is_condition c = Ok true ->
  is_condition (PyList [c]) = Ok false ->
  parse (PyList [c]) 1%Z = parse c 1%Z
  /\ compile (PyList [PyList [c]]) = compile (PyList [c]).
Proof.
  intros Hc Hleaf Hgroup.
  assert (Hsame : parse (PyList [c]) 1%Z = parse c 1%Z).
  { rewrite parse_conditions_group by (auto; reflexivity).
    cbn [iter bind for_each].
    rewrite !(parse_conditions_leaf _ _ _ _ _ _ _ _ _ _ _ c) by (auto; lia).
    unfold parse_simple_condition.
    destruct (process_condition dataset c) as [ [[lhs op] lit] | e ]; [ | reflexivity ].
    cbn [bind]. destruct (sort_IN_literal op lit) as [ lit' | e ]; [ | reflexivity ].
    cbn [bind]. destruct (unpacks_array dataset arrayjoin lhs lit').
    - destruct (operand lhs) as [ o | e ]; [ | reflexivity ]. cbn [bind].
      destruct (unpack o op lit') as [ r | e ]; reflexivity.
    - destruct (operand lhs) as [ o | e ]; [ | reflexivity ]. cbn [bind].
      destruct (simple o op lit') as [ r | e ]; reflexivity. }
  split; [ exact Hsame | ].
  unfold parse_conditions_to_expr.
  rewrite !parse_conditions_top_level by reflexivity.
  cbn [iter bind for_each]. now rewrite Hsame.
Qed.

Lemma leaves_compile (depth : Z) (items : list PyVal) (es : list Expression) :
  depth <> 0%Z ->
  Forall2 (compiles_as_leaf is_condition leaf) items es ->
  for_each (fun cond => parse cond depth) items = Ok (map Some es).
Proof.
  intros Hd. induction 1 as [ | item e items es (Ht & Hl & He) _ IH ]; [ reflexivity | ].
  cbn [for_each map]. rewrite parse_conditions_leaf by assumption.
  rewrite He. cbn [bind]. now rewrite IH.
Qed.

Lemma group_compiles (cond : PyVal) (group : Expression) :
  compiles_as_group BooleanFunctions_OR is_condition leaf cond group ->
  parse cond 1%Z = Ok (Some group).
Proof.
  intros [ (Ht & Hl & He) | (items & first & rest & Hcond & Hleaf & Hitems & ->) ].
  - rewrite parse_conditions_leaf by (auto; lia). exact He.
  - assert (Hsub := leaves_compile 2%Z items (first :: rest) ltac:(lia) Hitems).
    assert (Htruth : truth cond = true).
    { inversion Hitems; subst. now destruct Hcond as [ -> | -> ]. }
    rewrite parse_conditions_group by assumption.
    assert (Hiter : iter cond = Ok items) by (now destruct Hcond as [ -> | -> ]).
    rewrite Hiter. cbn [bind]. rewrite Hsub. cbn [bind].
    rewrite omap_if_s_Expression, omap_id_Some.
    unfold or_builder. now rewrite multi_expression_builder_nests.
Qed.

(** X6: the result is an AND of ORs. When every top-level sub-condition is
    a simple condition or a list or tuple of simple conditions, and the
    simple conditions compile, the whole compiles to the distinct groups, in
    the order of their first occurrence, nested to the right under AND,
    every group being its condition or its conditions nested to the right
    under OR; this when every group is hashable, and the call raises
    [TypeError] when one of them is not. *)
Theorem conditions_compile_to_an_AND_of_ORs
    (conds : list PyVal) (groups : list Expression) :
  Forall2 (compiles_as_group BooleanFunctions_OR is_condition leaf) conds groups ->
  compile (PyList conds)
  = if forallb Expression_hashable groups
    then Ok match first_occurrences groups with
            | [] => None
            | first :: rest => Some (right_nested BooleanFunctions_AND first rest)
            end
    else Raise TypeError.
Proof.
  intros Hgroups.
  assert (Hsub : for_each (fun cond => parse cond 1%Z) conds = Ok (map Some groups)).
  { induction Hgroups as [ | cond group conds groups Hg _ IH ]; [ reflexivity | ].
    cbn [for_each map]. rewrite (group_compiles cond group Hg). cbn [bind].
    now rewrite IH. }
  rewrite (compile_compiled_list _ _ Hsub). now rewrite omap_id_Some.
Qed.

(** X7: an operand that is no function call and that the quoted-literal
    pattern matches becomes a [Literal] holding the text between its first
    and its last character, so that a quoted text gives back the text; any
    other string becomes a [Column] of that name, and an operand that is
    neither a function call nor a string raises [TypeError]. *)
Theorem operands_are_literals_or_columns (val : PyVal) :
  is_function val 0%Z = Ok false ->
  (forall open close text,
      val = PyStr (String open (String.append text (String close EmptyString))) ->
      QUOTED_LITERAL_RE_match
        (String open (String.append text (String close EmptyString))) = true ->
      operand val = Ok (Literal None (PyStr text)))
  /\ (forall name,
         val = PyStr name -> QUOTED_LITERAL_RE_match name = false ->
         operand val = Ok (Column None name None))
  /\ ((forall name, val <> PyStr name) -> operand val = Raise TypeError).
Proof.
  intros Hfun. unfold operand_builder. rewrite Hfun. cbn [bind].
  split; [ | split ].
  - intros open close text -> Hquoted. rewrite Hquoted.
    now rewrite strip_ends_quoted.
  - intros name -> Hplain. now rewrite Hplain.
  - intros Hother. destruct val as [ | | name | | ]; try reflexivity.
    now contradiction (Hother name).
Qed.

Lemma alias_free_literals (items : list PyVal) :
  forallb alias_free (map (Literal None) items) = true.
Proof. induction items as [ | x items IH ]; simpl; [ reflexivity | exact IH ]. Qed.

Lemma preprocess_literal_alias_free (op : string) (literal : PyVal) (e : Expression) :
  preprocess_literal op literal = Ok e -> alias_free e = true.
Proof.
  unfold preprocess_literal.
  destruct literal as [ | z | t | items | items ], (in_IN_NOT_IN op);
    intros [= <-]; try reflexivity; simpl; apply alias_free_literals.
Qed.

Lemma builders_alias_free (lhs : Expression) (op : string) (literal : PyVal)
    (e : Expression) :
  alias_free lhs = true ->
  simple lhs op literal = Ok e \/ unpack lhs op literal = Ok e ->
  alias_free e = true.
Proof.
  intros Hlhs. unfold simple_condition_builder, unpack_array_condition_builder.
  destruct (operator_function OPERATOR_TO_FUNCTION op) as [ comparison | ];
    cbn [bind]; [ | intros [ | ]; discriminate ].
  destruct (preprocess_literal op literal) as [ rhs | ] eqn:Hrhs;
    cbn [bind]; [ | intros [ | ]; discriminate ].
  apply preprocess_literal_alias_free in Hrhs.
  intros [ [= <-] | [= <-] ]; simpl; now rewrite Hlhs, Hrhs.
Qed.

Lemma right_nested_alias_free (function : string) (first : Expression)
    (rest : list Expression) :
  Forall (fun e => alias_free e = true) (first :: rest) ->
  alias_free (right_nested function first rest) = true.
Proof.
  revert first. induction rest as [ | second rest IH ]; intros first Hall.
  - now inversion Hall.
  - inversion Hall as [ | ? ? Hfirst Hrest ]; subst. simpl.
    now rewrite Hfirst, (IH second Hrest).
Qed.

Lemma and_or_builder_alias_free (function : string) (expressions : list Expression)
    (e : Expression) :
  Forall (fun e => alias_free e = true) expressions ->
  and_builder function expressions = Ok (Some e) ->
  alias_free e = true.
Proof.
  intros Hall. destruct expressions as [ | first rest ]; [ discriminate | ].
  unfold and_builder. rewrite multi_expression_builder_nests. cbn [bind].
  intros [= <-]. now apply right_nested_alias_free.
Qed.

Lemma kept_alias_free (results : list (option Expression)) :
  Forall (fun r => forall e, r = Some e -> alias_free e = true) results ->
  Forall (fun e => alias_free e = true) (omap (if_s Expression_bool) results).
Proof.
  rewrite omap_if_s_Expression, !Forall_forall. intros Hall e He.
  apply elem_of_omap_id in He. exact (Hall (Some e) He e eq_refl).
Qed.

Lemma parse_conditions_body_alias_free self (conditions : PyVal) (depth : Z)
    (r : option Expression) :
  (forall v f, parse_function_to_expr v = Ok f -> alias_free f = true) ->
  (forall c r', self c (depth + 1)%Z = Ok r' ->
     forall e, r' = Some e -> alias_free e = true) ->
  parse_conditions_body Expression_bool Expression_hash str is_condition operand
    conj_builder disj_builder unpack simple dataset arrayjoin self conditions depth
  = Ok r ->
  forall e, r = Some e -> alias_free e = true.
Proof.
  intros Hfun Hself. unfold parse_conditions_body.
  destruct (negb (truth conditions)); [ intros [= <-]; discriminate | ].
  destruct (depth =? 0)%Z.
  - destruct (iter conditions) as [ conds | ]; cbn [bind]; [ | discriminate ].
    rewrite (OrderedDict_keys_bind (hash_key Expression_hash)
               (fun cond => self cond (depth + 1)%Z) PyNone conds
               (fun ks => conj_builder (omap (if_s Expression_bool) ks))).
    destruct (for_each _ conds) as [ compiled | ] eqn:Hsub; cbn [bind]; [ | discriminate ].
    intros Hand e ->. apply and_or_builder_alias_free in Hand; [ exact Hand | ].
    apply kept_alias_free. rewrite Forall_forall. intros x Hx.
    rewrite elem_of_first_occurrences in Hx.
    assert (Hall : Forall (fun r => forall e, r = Some e -> alias_free e = true) compiled).
    { eapply for_each_Forall; [ | exact Hsub ].
      intros c r Hr. cbv beta in Hr. apply (Hself c).
      destruct (self c (depth + 1)%Z) as [ r' | ]; cbn [bind] in Hr; [ | discriminate ].
      destruct (hash_key Expression_hash r') as [ [] | ]; cbn [bind] in Hr;
        [ exact Hr | discriminate ]. }
    rewrite Forall_forall in Hall. exact (Hall x Hx).
  - destruct (is_condition conditions) as [ [ | ] | ]; cbn [bind]; [ | | discriminate ].
    + unfold parse_simple_condition.
      destruct (process_condition dataset conditions) as [ [[lhs op] lit] | ];
        cbn [bind]; [ | discriminate ].
      destruct (sort_IN_literal op lit) as [ lit' | ]; cbn [bind]; [ | discriminate ].
      assert (Hoperand : forall o, operand lhs = Ok o -> alias_free o = true).
      { unfold operand_builder. intros o.
        destruct (is_function lhs 0%Z) as [ [ | ] | ]; cbn [bind];
          [ apply Hfun | | discriminate ].
        destruct lhs as [ | | name | | ]; try discriminate.
        destruct (QUOTED_LITERAL_RE_match name); now intros [= <-]. }
      destruct (unpacks_array dataset arrayjoin lhs lit');
        (destruct (operand lhs) as [ o | ]; cbn [bind]; [ | discriminate ]).
      * destruct (unpack o op lit') as [ b | ] eqn:Hb; cbn [bind]; [ | discriminate ].
        intros [= <-] e [= <-].
        apply (builders_alias_free o op lit' b); auto.
      * destruct (simple o op lit') as [ b | ] eqn:Hb; cbn [bind]; [ | discriminate ].
        intros [= <-] e [= <-].
        apply (builders_alias_free o op lit' b); auto.
    + destruct (depth =? 1)%Z; [ | discriminate ].
      destruct (iter conditions) as [ conds | ]; cbn [bind]; [ | discriminate ].
      destruct (for_each _ conds) as [ sub | ] eqn:Hsub; cbn [bind]; [ | discriminate ].
      intros Hor e ->. apply and_or_builder_alias_free in Hor; [ exact Hor | ].
      apply kept_alias_free. exact (for_each_Forall _ _ _ _ Hself Hsub).
Qed.

(** X8: the compiler puts no alias on anything it builds: when the
    expressions [parse_function_to_expr] returns carry none, no node of a
    compiled condition carries one. *)
Theorem compiled_conditions_carry_no_alias (conditions : PyVal) (e : Expression) :
  (forall v f, parse_function_to_expr v = Ok f -> alias_free f = true) ->
  compile conditions = Ok (Some e) ->
  alias_free e = true.
Proof.
  intros Hfun Hcompile. unfold parse_conditions_to_expr, parse_conditions in Hcompile.
  eapply parse_conditions_body_alias_free; [ exact Hfun | | exact Hcompile | reflexivity ].
  intros c1 r1 H1. eapply parse_conditions_body_alias_free; [ exact Hfun | | exact H1 ].
  intros c2 r2 H2. eapply parse_conditions_body_alias_free; [ exact Hfun | | exact H2 ].
  discriminate.
Qed.

End ParseConditionsToExprMore.

Lemma insort_perm (x : PyVal) (s r : list PyVal) :
  insort x s = Ok r -> r ≡ₚ x :: s.
Proof.
  revert r. induction s as [ | y ys IH ]; simpl; intros r.
  - now intros [= <-].
  - destruct (py_lt y x) as [ [ | ] | ]; cbn [bind]; [ | now intros [= <-] | discriminate ].
    destruct (insort x ys) as [ r' | ]; cbn [bind]; [ | discriminate ].
    intros [= <-]. rewrite (IH r' eq_refl). apply Permutation_swap.
Qed.

Lemma sorted_perm (items s : list PyVal) : sorted items = Ok s -> s ≡ₚ items.
Proof.
  revert s. induction items as [ | x items IH ]; simpl; intros s.
  - now intros [= <-].
  - destruct (sorted items) as [ s' | ]; cbn [bind]; [ | discriminate ].
    intros Hs. apply insort_perm in Hs. now rewrite Hs, (IH s' eq_refl).
Qed.

(** X9: sorting the literal of an IN or NOT IN condition keeps its values:
    a tuple comes back as a tuple of the same elements, each as many times
    as before, and any other literal comes back as it is. *)
Theorem sort_IN_literal_keeps_the_values (op : string) (lit lit' : PyVal) :
  sort_IN_literal op lit = Ok lit' ->
  match lit with
  | PyTuple items => exists s, lit' = PyTuple s /\ s ≡ₚ items
  | _ => lit' = lit
  end.
Proof.
  unfold sort_IN_literal. destruct lit as [ | | | | items ]; try (now intros [= <-]).
  destruct (in_IN_NOT_IN op); [ | intros [= <-]; now exists items ].
  destruct (sorted items) as [ s | ] eqn:Hs; cbn [bind]; [ | discriminate ].
  intros [= <-]. exists s. split; [ reflexivity | now apply sorted_perm ].
Qed.

(** X10: the sorted literal is a canonical form: sorting it again, for the
    same operator, returns it unchanged, when the values of the tuple are
    pairwise comparable. *)
Theorem sort_IN_literal_is_idempotent (op : string) (items : list PyVal) (lit' : PyVal) :
  (forall a b, a ∈ items -> b ∈ items -> exists r, py_lt a b = Ok r) ->
  sort_IN_literal op (PyTuple items) = Ok lit' ->
  sort_IN_literal op lit' = Ok lit'.
Proof.
  intros Hcmp. unfold sort_IN_literal at 1.
  destruct (in_IN_NOT_IN op) eqn:Hop;
    [ | intros [= <-]; unfold sort_IN_literal; now rewrite Hop ].
  destruct (sorted items) as [ s | ] eqn:Hs; cbn [bind]; [ | discriminate ].
  intros [= <-]. unfold sort_IN_literal. rewrite Hop.
  assert (Hperm : items ≡ₚ s) by (symmetry; now apply sorted_perm).
  destruct (sorted_of_permutation items s Hcmp Hperm) as (s0 & H1 & H2 & _).
  rewrite Hs in H1. injection H1 as <-. now rewrite H2.
Qed.

(** * Further properties of the simple pipeline *)

Section SimplePipelineMore.
Variables Request Query Settings Runner QueryResult : Type.
Variable settings : Request -> Settings.
Variable entity_processors : list (EntityProcessor Request).
Variable plan_processors : list (PlanProcessor Query Settings).
Variable runner : Runner.
Variable build_plan :
  Request -> result (ClickhouseQueryPlan Query Settings Runner QueryResult).

Local Abbreviation state := (State Request Query Settings Runner QueryResult).
Local Abbreviation run :=
  (execute settings entity_processors plan_processors runner build_plan).
Local Abbreviation entity_calls :=
  (map (fun p => @CallEntityProcessor Query (entity_processor_name p)) entity_processors).
Local Abbreviation plan_calls :=
  (map (fun p => @CallPlanProcessor Query (plan_processor_name p)) plan_processors).

Lemma entity_processors_calls (ps : list (EntityProcessor Request)) (s : state) :
  exists done,
    calls (for_in call_entity_processor ps s).1 = calls s ++ done
    /\ done `prefix_of`
         map (fun p => @CallEntityProcessor Query (entity_processor_name p)) ps
    /\ ((for_in call_entity_processor ps s).2 = Ok tt ->
        done = map (fun p => @CallEntityProcessor Query (entity_processor_name p)) ps).
Proof.
  revert s. induction ps as [ | p ps IH ]; intros s.
  - exists []. rewrite for_in_nil, app_nil_r. repeat split; reflexivity.
  - rewrite for_in_cons, call_entity_processor_eq.
    destruct (process_request p (request s)).2 as [ e | ].
    + exists [CallEntityProcessor (entity_processor_name p)]. cbn [fst snd calls].
      split; [ reflexivity | ]. split; [ | discriminate ].
      now apply prefix_cons, prefix_nil.
    + match goal with
      | |- context [for_in _ ps ?s1] => destruct (IH s1) as (done & Hcalls & Hpre & Hall)
      end.
      exists (CallEntityProcessor (entity_processor_name p) :: done).
      rewrite Hcalls. cbn [calls]. rewrite <- app_assoc.
      split; [ reflexivity | ]. split; [ now apply prefix_cons | ].
      intros Hok. cbn [map]. now rewrite (Hall Hok).
Qed.

Lemma call_plan_processor_calls (ref : nat) (p : PlanProcessor Query Settings)
    (s : state) :
  calls (call_plan_processor settings ref p s).1
  = calls s ++ [CallPlanProcessor (plan_processor_name p)].
Proof.
  unfold call_plan_processor, and_then, record_call. cbn [plans request calls].
  destruct (plans s !! ref) as [ pl | ]; [ | reflexivity ].
  now destruct (process_query p (query pl) (settings (request s))).
Qed.

Lemma plan_processors_calls (ps : list (PlanProcessor Query Settings))
    (ref : nat) (s : state) :
  exists done,
    calls (for_in (call_plan_processor settings ref) ps s).1 = calls s ++ done
    /\ done `prefix_of`
         map (fun p => @CallPlanProcessor Query (plan_processor_name p)) ps
    /\ ((for_in (call_plan_processor settings ref) ps s).2 = Ok tt ->
        done = map (fun p => @CallPlanProcessor Query (plan_processor_name p)) ps).
Proof.
  revert s. induction ps as [ | p ps IH ]; intros s.
  - exists []. rewrite for_in_nil, app_nil_r. repeat split; reflexivity.
  - rewrite for_in_cons.
    pose proof (call_plan_processor_calls ref p s) as Hstep.
    destruct (call_plan_processor settings ref p s) as [s1 [ [] | e ]];
      cbn [fst snd] in Hstep |- *.
    + destruct (IH s1) as (done & Hcalls & Hpre & Hall).
      exists (CallPlanProcessor (plan_processor_name p) :: done).
      rewrite Hcalls, Hstep, <- app_assoc.
      split; [ reflexivity | ]. split; [ now apply prefix_cons | ].
      intros Hok. cbn [map]. now rewrite (Hall Hok).
    + exists [CallPlanProcessor (plan_processor_name p)].
      split; [ exact Hstep | ]. split; [ | discriminate ].
      now apply prefix_cons, prefix_nil.
Qed.

Lemma call_plan_processor_frame (ref : nat) (p : PlanProcessor Query Settings)
    (s : state) :
  length (plans (call_plan_processor settings ref p s).1) = length (plans s)
  /\ forall i, i <> ref ->
       plans (call_plan_processor settings ref p s).1 !! i = plans s !! i.
Proof.
  unfold call_plan_processor, and_then, record_call. cbn [plans request calls].
  destruct (plans s !! ref) as [ pl | ]; [ | split; reflexivity ].
  destruct (process_query p (query pl) (settings (request s))) as [q raised].
  cbn [fst plans]. split; [ apply length_insert | ].
  intros i Hi. apply list_lookup_insert_ne. congruence.
Qed.

Lemma plan_processors_frame (ps : list (PlanProcessor Query Settings))
    (ref : nat) (s : state) :
  length (plans (for_in (call_plan_processor settings ref) ps s).1) = length (plans s)
  /\ forall i, i <> ref ->
       plans (for_in (call_plan_processor settings ref) ps s).1 !! i = plans s !! i.
Proof.
  revert s. induction ps as [ | p ps IH ]; intros s; [ split; reflexivity | ].
  rewrite for_in_cons.
  destruct (call_plan_processor_frame ref p s) as [Hlen Hother].
  destruct (call_plan_processor settings ref p s) as [s1 [ [] | e ]];
    cbn [fst] in Hlen, Hother |- *; [ | now split ].
  destruct (IH s1) as [Hlen' Hother']. split; [ congruence | ].
  intros i Hi. now rewrite Hother', Hother.
Qed.

Lemma call_execution_strategy_calls (ref : nat) (s : state)
    (pl : ClickhouseQueryPlan Query Settings Runner QueryResult) :
  plans s !! ref = Some pl ->
  calls (call_execution_strategy settings runner ref s).1
  = calls s ++ [CallExecutionStrategy ref (query pl)]
  /\ plans (call_execution_strategy settings runner ref s).1 = plans s.
Proof.
  intros Href. unfold call_execution_strategy, and_then, record_call.
  rewrite Href. split; reflexivity.
Qed.

(** X11: for any lists of processors, an [execute] that returns has called
    every entity processor in the order of the list, then [build_plan]
    once, then every plan processor in the order of the list, then the
    execution strategy of the new plan, and nothing else. *)
Theorem returning_execute_called_every_stage (s s' : state) (res : QueryResult) :
  execute settings entity_processors plan_processors runner build_plan s
  = (s', Ok res) ->
  exists q,
    calls s'
    = calls s ++ entity_calls ++ [CallBuildPlan] ++ plan_calls
      ++ [CallExecutionStrategy (length (plans s)) q].
Proof.
  rewrite execute_eq. unfold _execute_entity_processors, _execute_query_plan_processors.
  destruct (entity_processors_calls entity_processors s) as (done1 & Hc1 & _ & Hall1).
  pose proof (entity_processors_keep_plans Request Query Settings Runner QueryResult entity_processors s) as Hkeep.
  destruct (for_in call_entity_processor entity_processors s) as [s1 [ [] | e ]];
    [ | discriminate ].
  cbn [fst snd] in Hc1, Hall1. rewrite (Hall1 eq_refl) in Hc1.
  destruct (Hkeep s1 (Ok tt) eq_refl) as [Hplans _].
  destruct (build_plan (request s1)) as [ built | e ]; [ | discriminate ].
  match goal with
  | |- context [for_in ?body plan_processors ?s2] =>
      destruct (plan_processors_calls plan_processors (length (plans s1)) s2)
        as (done2 & Hc2 & _ & Hall2);
      pose proof (plan_processors_keep_attribute _ _ _ _ _ settings plan_processors
                    (length (plans s1)) s2) as Hattr;
      destruct (plan_processors_frame plan_processors (length (plans s1)) s2)
        as [Hlen _];
      destruct (for_in body plan_processors s2) as [s3 [ [] | e ]]
  end; [ | discriminate ].
  cbn [fst snd calls plans query_plan_attribute] in Hc2, Hall2, Hattr, Hlen.
  rewrite (Hall2 eq_refl) in Hc2.
  unfold query_plan_of. rewrite Hattr.
  destruct (plans s3 !! length (plans s1)) as [ pl | ] eqn:Href.
  - destruct (call_execution_strategy_calls (length (plans s1)) s3 pl Href) as [Hc3 _].
    intros Hrun. rewrite Hrun in Hc3. cbn [fst] in Hc3.
    exists (query pl). rewrite Hc3, Hc2, Hc1, Hplans, <- !app_assoc. reflexivity.
  - apply lookup_ge_None in Href. rewrite Hlen, length_app in Href. simpl in Href. lia.
Qed.

(** X12: [execute] stops at the stage that raises, with the exception of
    this stage, and skips none. When the entity processors before [p] have
    returned and [p] raises, [p] is the last call; when all of them have
    returned and [build_plan] raises, [build_plan] is the last call; when
    the plan has been built, the plan processors before [p] have returned on
    its query and [p] raises, [p] is the last call; and when every plan
    processor has returned, the execution strategy of the plan is called on
    the query they left, and its outcome is the outcome of [execute]. *)
Theorem execute_calls_the_stages_in_order (s : state) :
  let outcome :=
    execute settings entity_processors plan_processors runner build_plan s in
  (forall before p after s1 e,
      entity_processors = before ++ p :: after ->
      _execute_entity_processors before s = (s1, Ok tt) ->
      (process_request p (request s1)).2 = Some e ->
      outcome.2 = Raise e
      /\ calls outcome.1
         = calls s
           ++ map (fun p => CallEntityProcessor (entity_processor_name p))
                (before ++ [p]))
  /\ (forall s1,
         _execute_entity_processors entity_processors s = (s1, Ok tt) ->
         (forall e,
             build_plan (request s1) = Raise e ->
             outcome.2 = Raise e
             /\ calls outcome.1 = calls s ++ entity_calls ++ [CallBuildPlan])
         /\ (forall built,
                build_plan (request s1) = Ok built ->
                let st := settings (request s1) in
                (forall before p after e,
                    plan_processors = before ++ p :: after ->
                    plan_processors_return before (query built) st = true ->
                    (process_query p (processed_query before (query built) st) st).2
                    = Some e ->
                    outcome.2 = Raise e
                    /\ calls outcome.1
                       = calls s ++ entity_calls ++ [CallBuildPlan]
                         ++ map (fun p => CallPlanProcessor (plan_processor_name p))
                              (before ++ [p]))
                /\ (plan_processors_return plan_processors (query built) st = true ->
                    let q := processed_query plan_processors (query built) st in
                    outcome.2 = execution_strategy built q st runner
                    /\ calls outcome.1
                       = calls s ++ entity_calls ++ [CallBuildPlan] ++ plan_calls
                         ++ [CallExecutionStrategy (length (plans s)) q]))).
Proof.
  cbn zeta. split.
  - intros before p after s1 e Heps Hbefore Hp.
    rewrite execute_eq. unfold _execute_entity_processors in *.
    destruct (entity_processors_calls before s) as (done & Hc & _ & Hall).
    rewrite Hbefore in Hc, Hall. cbn [fst snd] in Hc, Hall.
    rewrite (Hall eq_refl) in Hc.
    rewrite Heps, (for_in_app _ _ _ _ _ _ before (p :: after) s), Hbefore.
    rewrite for_in_cons, call_entity_processor_eq, Hp. cbn [fst snd calls].
    rewrite Hc, map_app, <- app_assoc. split; reflexivity.
  - intros s1 H1.
    assert (Hc1 : calls s1 = calls s ++ entity_calls).
    { destruct (entity_processors_calls entity_processors s) as (done & Hc & _ & Hall).
      unfold _execute_entity_processors in H1.
      rewrite H1 in Hc, Hall. cbn [fst snd] in Hc, Hall.
      now rewrite (Hall eq_refl) in Hc. }
    assert (Hplans : plans s1 = plans s).
    { unfold _execute_entity_processors in H1.
      now apply entity_processors_keep_plans in H1 as [Hplans _]. }
    split.
    + intros e Hbuild. rewrite execute_eq, H1, Hbuild. cbn [fst snd calls].
      rewrite Hc1, <- app_assoc. split; reflexivity.
    + intros built Hbuild.
      assert (Href : forall attr cs,
                 plans {| request := request s1; plans := plans s1 ++ [built];
                          query_plan_attribute := attr; calls := cs |}
                   !! length (plans s1) = Some built).
      { intros attr cs. cbn [plans]. rewrite lookup_app_r by reflexivity.
        now rewrite Nat.sub_diag. }
      split.
      * intros before p after e Hpps Hret Hp.
        rewrite execute_eq, H1, Hbuild. unfold _execute_query_plan_processors.
        rewrite Hpps, (for_in_app _ _ _ _ _ _ before (p :: after)).
        match goal with
        | |- context [for_in ?body before ?s2] =>
            destruct (plan_processors_return_Ok _ _ _ _ _ settings before
                        (length (plans s1)) built s2 (Href _ _) Hret) as (s3 & H3);
            destruct (plan_processors_calls before (length (plans s1)) s2)
              as (done2 & Hc2 & _ & Hall2);
            pose proof (plan_processors_process _ _ _ _ _ settings before
                          (length (plans s1)) built s2 s3 (Href _ _) H3)
              as (Hreq & _ & Hplans3)
        end.
        rewrite H3 in Hc2, Hall2 |- *. cbn [fst snd request plans calls] in *.
        rewrite (Hall2 eq_refl) in Hc2.
        rewrite for_in_cons.
        rewrite (call_plan_processor_eq _ _ _ _ _ settings (length (plans s1)) p
                   {| query := processed_query before (query built) (settings (request s1));
                      execution_strategy := execution_strategy built |} s3).
        2:{ rewrite Hplans3. apply list_lookup_insert_eq.
            rewrite length_app. simpl. lia. }
        cbn [query]. rewrite Hreq, Hp. cbn [fst snd calls].
        rewrite Hc2, Hc1, map_app, <- !app_assoc. split; reflexivity.
      * intros Hret.
        rewrite execute_eq, H1, Hbuild. unfold _execute_query_plan_processors.
        match goal with
        | |- context [for_in ?body plan_processors ?s2] =>
            destruct (plan_processors_return_Ok _ _ _ _ _ settings plan_processors
                        (length (plans s1)) built s2 (Href _ _) Hret) as (s3 & H3);
            destruct (plan_processors_calls plan_processors (length (plans s1)) s2)
              as (done2 & Hc2 & _ & Hall2);
            pose proof (plan_processors_process _ _ _ _ _ settings plan_processors
                          (length (plans s1)) built s2 s3 (Href _ _) H3)
              as (Hreq & Hattr & Hplans3)
        end.
        rewrite H3 in Hc2, Hall2 |- *.
        cbn [fst snd request plans calls query_plan_attribute] in *.
        rewrite (Hall2 eq_refl) in Hc2.
        unfold query_plan_of. rewrite Hattr.
        unfold call_execution_strategy, and_then, record_call.
        rewrite Hplans3, list_lookup_insert_eq by (rewrite length_app; simpl; lia).
        cbn [fst snd calls query execution_strategy request].
        rewrite Hreq, Hc2, Hc1, Hplans, <- !app_assoc. split; reflexivity.
Qed.

End SimplePipelineMore.

(** ** The further properties on the sample dataset and pipeline *)

Section SampleConditionsMore.
Import Sample.

Lemma repeated_condition_changes_nothing_witness :
  parse (PyList ([cond "a" "=" (PyInt 1); cond "b" "=" (PyInt 2)]
                 ++ [cond "a" "=" (PyInt 1)])) None 0
  = parse (PyList [cond "a" "=" (PyInt 1); cond "b" "=" (PyInt 2)]) None 0.
Proof.
  apply (repeated_condition_changes_nothing Expression_bool Expression_hash
           str is_condition
           (operand_builder is_function parse_function_to_expr QUOTED_LITERAL_RE_match)
           (and_builder "and") (or_builder "or")
           (unpack_array_condition_builder OPERATOR_TO_FUNCTION POSITIVE_OPERATORS)
           (simple_condition_builder OPERATOR_TO_FUNCTION) dataset None
           [cond "a" "=" (PyInt 1); cond "b" "=" (PyInt 2)] (cond "a" "=" (PyInt 1))).
  apply list_elem_of_here.
Defined.

Lemma first_failing_condition_decides_witness :
  parse (PyList ([cond "a" "=" (PyInt 1)]
                 ++ cond "tags.key" "IN" (PyStr "x") :: [cond "b" "NOPE" (PyInt 2)]))
    None 0
  = Raise AssertionError
  /\ parse (PyList ([cond "a" "=" (PyInt 1)]
                    ++ cond "a" "IN" (PyList [PyList [PyInt 1]])
                       :: [cond "b" "NOPE" (PyInt 2)]))
       None 0
     = Raise TypeError.
Proof.
  split.
  - destruct (first_failing_condition_decides Expression_bool Expression_hash
                str is_condition
                (operand_builder is_function parse_function_to_expr QUOTED_LITERAL_RE_match)
                (and_builder "and") (or_builder "or")
                (unpack_array_condition_builder OPERATOR_TO_FUNCTION POSITIVE_OPERATORS)
                (simple_condition_builder OPERATOR_TO_FUNCTION) dataset None
                [cond "a" "=" (PyInt 1)] [cond "b" "NOPE" (PyInt 2)]
                (cond "tags.key" "IN" (PyStr "x")) AssertionError) as (Htop & _).
    exact (Htop [Some (equals "a" (PyInt 1))] eq_refl (or_introl eq_refl)).
  - destruct (first_failing_condition_decides Expression_bool Expression_hash
                str is_condition
                (operand_builder is_function parse_function_to_expr QUOTED_LITERAL_RE_match)
                (and_builder "and") (or_builder "or")
                (unpack_array_condition_builder OPERATOR_TO_FUNCTION POSITIVE_OPERATORS)
                (simple_condition_builder OPERATOR_TO_FUNCTION) dataset None
                [cond "a" "=" (PyInt 1)] [cond "b" "NOPE" (PyInt 2)]
                (cond "a" "IN" (PyList [PyList [PyInt 1]])) TypeError) as (Htop & _).
    apply (Htop [Some (equals "a" (PyInt 1))] eq_refl). right.
    exists (Some (FunctionCall None "in"
                    [ Column None "a" None;
                      FunctionCall None "tuple" [Literal None (PyList [PyInt 1])] ])).
    split; reflexivity.
Defined.

Lemma scalar_conditions_are_rejected_witness :
  parse (PyInt 5) None 0 = Raise TypeError
  /\ parse (PyStr "abc") None 0 = Raise (InvalidConditionException "a").
Proof.
  destruct (scalar_conditions_are_rejected Expression_bool Expression_hash
              str is_condition
              (operand_builder is_function parse_function_to_expr QUOTED_LITERAL_RE_match)
              (and_builder "and") (or_builder "or")
              (unpack_array_condition_builder OPERATOR_TO_FUNCTION POSITIVE_OPERATORS)
              (simple_condition_builder OPERATOR_TO_FUNCTION) dataset None)
    as (Hint & Hstr).
  split.
  - apply Hint. discriminate.
  - exact (Hstr "a"%char "bc" eq_refl).
Defined.

Lemma empty_conditions_are_ignored_witness :
  compile (PyList ([cond "a" "=" (PyInt 1)] ++ PyList [] :: [cond "b" "=" (PyInt 2)])) None
  = compile (PyList ([cond "a" "=" (PyInt 1)] ++ [cond "b" "=" (PyInt 2)])) None.
Proof.
  exact (empty_conditions_are_ignored OPERATOR_TO_FUNCTION POSITIVE_OPERATORS
           "and" "or" str is_condition is_function parse_function_to_expr
           QUOTED_LITERAL_RE_match dataset None
           [cond "a" "=" (PyInt 1)] [cond "b" "=" (PyInt 2)] (PyList []) eq_refl).
Defined.

Lemma single_condition_group_is_the_condition_witness :
  parse (PyList [cond "a" "=" (PyInt 1)]) None 1 = parse (cond "a" "=" (PyInt 1)) None 1
  /\ compile (PyList [PyList [cond "a" "=" (PyInt 1)]]) None
     = compile (PyList [cond "a" "=" (PyInt 1)]) None.
Proof.
  exact (single_condition_group_is_the_condition OPERATOR_TO_FUNCTION
           POSITIVE_OPERATORS "and" "or" str is_condition is_function
           parse_function_to_expr QUOTED_LITERAL_RE_match dataset None
           (cond "a" "=" (PyInt 1)) eq_refl eq_refl eq_refl).
Defined.

Lemma conditions_compile_to_an_AND_of_ORs_witness :
  compile (PyList [ cond "a" "=" (PyInt 1);
                    PyList [cond "a" "=" (PyInt 1); cond "b" "=" (PyInt 2)];
                    cond "a" "=" (PyInt 1) ]) None
  = Ok (Some (FunctionCall None "and"
                [ equals "a" (PyInt 1);
                  FunctionCall None "or"
                    [equals "a" (PyInt 1); equals "b" (PyInt 2)] ])).
Proof.
  pose (leaf := parse_simple_condition
                  (operand_builder is_function parse_function_to_expr
                     QUOTED_LITERAL_RE_match)
                  (unpack_array_condition_builder OPERATOR_TO_FUNCTION POSITIVE_OPERATORS)
                  (simple_condition_builder OPERATOR_TO_FUNCTION) dataset None).
  assert (Ha : compiles_as_leaf is_condition leaf
                 (cond "a" "=" (PyInt 1)) (equals "a" (PyInt 1)))
    by (unfold compiles_as_leaf; repeat split).
  assert (Hb : compiles_as_leaf is_condition leaf
                 (cond "b" "=" (PyInt 2)) (equals "b" (PyInt 2)))
    by (unfold compiles_as_leaf; repeat split).
  apply (conditions_compile_to_an_AND_of_ORs OPERATOR_TO_FUNCTION POSITIVE_OPERATORS
           "and" "or" str is_condition is_function parse_function_to_expr
           QUOTED_LITERAL_RE_match dataset None
           [ cond "a" "=" (PyInt 1);
             PyList [cond "a" "=" (PyInt 1); cond "b" "=" (PyInt 2)];
             cond "a" "=" (PyInt 1) ]
           [ equals "a" (PyInt 1);
             FunctionCall None "or" [equals "a" (PyInt 1); equals "b" (PyInt 2)];
             equals "a" (PyInt 1) ]).
  constructor; [ left; exact Ha | ].
  constructor; [ | constructor; [ left; exact Ha | constructor ] ].
  right. exists [cond "a" "=" (PyInt 1); cond "b" "=" (PyInt 2)],
           (equals "a" (PyInt 1)), [equals "b" (PyInt 2)].
  split; [ left; reflexivity | ]. split; [ reflexivity | ].
  split; [ | reflexivity ].
  constructor; [ exact Ha | constructor; [ exact Hb | constructor ] ].
Defined.

Lemma operands_are_literals_or_columns_witness :
  operand_builder is_function parse_function_to_expr QUOTED_LITERAL_RE_match
    (PyStr "'abc'")
  = Ok (Literal None (PyStr "abc"))
  /\ operand_builder is_function parse_function_to_expr QUOTED_LITERAL_RE_match
       (PyStr "abc")
     = Ok (Column None "abc" None)
  /\ operand_builder is_function parse_function_to_expr QUOTED_LITERAL_RE_match
       (PyInt 3)
     = Raise TypeError.
Proof.
  split; [ | split ].
  - destruct (operands_are_literals_or_columns is_function parse_function_to_expr
                QUOTED_LITERAL_RE_match (PyStr "'abc'") eq_refl) as (Hquoted & _).
    exact (Hquoted "'"%char "'"%char "abc" eq_refl eq_refl).
  - destruct (operands_are_literals_or_columns is_function parse_function_to_expr
                QUOTED_LITERAL_RE_match (PyStr "abc") eq_refl) as (_ & Hplain & _).
    exact (Hplain "abc" eq_refl eq_refl).
  - destruct (operands_are_literals_or_columns is_function parse_function_to_expr
                QUOTED_LITERAL_RE_match (PyInt 3) eq_refl) as (_ & _ & Hother).
    apply Hother. discriminate.
Defined.

Lemma compiled_conditions_carry_no_alias_witness :
  alias_free
    (FunctionCall None "and"
       [ equals "a" (PyInt 1);
         FunctionCall None "arrayExists"
           [ Lambda None ["x"]
               (FunctionCall None "assumeNotNull"
                  [ FunctionCall None "equals"
                      [Argument None "x"; Literal None (PyStr "x")] ]);
             Column None "tags.key" None ] ])
  = true.
Proof.
  apply (compiled_conditions_carry_no_alias OPERATOR_TO_FUNCTION POSITIVE_OPERATORS
           "and" "or" str is_condition is_function parse_function_to_expr
           QUOTED_LITERAL_RE_match dataset None
           (PyList [cond "a" "=" (PyInt 1); cond "tags.key" "=" (PyStr "x")])).
  - intros v f Hf. discriminate Hf.
  - reflexivity.
Defined.

Lemma sort_IN_literal_keeps_the_values_witness :
  exists s, PyTuple [PyInt 1; PyInt 2; PyInt 3] = PyTuple s
            /\ s ≡ₚ [PyInt 3; PyInt 1; PyInt 2].
Proof.
  exact (sort_IN_literal_keeps_the_values "IN" (PyTuple [PyInt 3; PyInt 1; PyInt 2])
           (PyTuple [PyInt 1; PyInt 2; PyInt 3]) eq_refl).
Defined.

Lemma sort_IN_literal_is_idempotent_witness :
  sort_IN_literal "NOT IN" (PyTuple [PyStr "a"; PyStr "b"])
  = Ok (PyTuple [PyStr "a"; PyStr "b"]).
Proof.
  apply (sort_IN_literal_is_idempotent "NOT IN" [PyStr "b"; PyStr "a"]).
  - intros a b Ha Hb. rewrite !elem_of_cons, elem_of_nil in Ha, Hb.
    destruct Ha as [ -> | [ -> | [] ] ]; destruct Hb as [ -> | [ -> | [] ] ];
      eexists; reflexivity.
  - reflexivity.
Defined.

End SampleConditionsMore.

Section SamplePipelineMoreRuns.
Import SamplePipeline.

Lemma returning_execute_called_every_stage_witness :
  exists q,
    calls (execute build_plan fresh).1
    = calls fresh
      ++ map (fun p => CallEntityProcessor (entity_processor_name p)) [P1; P2]
      ++ [CallBuildPlan]
      ++ map (fun p => CallPlanProcessor (plan_processor_name p)) [P3]
      ++ [CallExecutionStrategy (length (plans fresh)) q].
Proof.
  exact (returning_execute_called_every_stage nat (list string) unit unit (list string)
           (fun _ => tt) [P1; P2] [P3] tt build_plan fresh
           (execute build_plan fresh).1 ["built"; "P3"; "executed"] eq_refl).
Defined.

Lemma execute_calls_the_stages_in_order_witness :
  (execute build_plan (init 1%nat [])).2 = Raise (OtherException "processed")
  /\ calls (execute build_plan (init 1%nat [])).1 = [CallEntityProcessor "P1"]
  /\ (execute refuse_plan fresh).2 = Raise (OtherException "no plan")
  /\ calls (execute refuse_plan fresh).1
     = [CallEntityProcessor "P1"; CallEntityProcessor "P2"; CallBuildPlan]
  /\ (execute build_plan fresh).2 = Ok ["built"; "P3"; "executed"]
  /\ calls (execute build_plan fresh).1
     = [CallEntityProcessor "P1"; CallEntityProcessor "P2"; CallBuildPlan;
        CallPlanProcessor "P3"; CallExecutionStrategy 0%nat ["built"; "P3"]].
Proof.
  destruct (execute_calls_the_stages_in_order nat (list string) unit unit (list string)
              (fun _ => tt) [P1; P2] [P3] tt build_plan (init 1%nat []))
    as (Hentity & _).
  destruct (execute_calls_the_stages_in_order nat (list string) unit unit (list string)
              (fun _ => tt) [P1; P2] [P3] tt refuse_plan fresh)
    as (_ & Hrefused).
  destruct (execute_calls_the_stages_in_order nat (list string) unit unit (list string)
              (fun _ => tt) [P1; P2] [P3] tt build_plan fresh)
    as (_ & Hbuilt).
  destruct (Hentity [] P1 [P2] (init 1%nat []) (OtherException "processed")
              eq_refl eq_refl eq_refl) as (Hout1 & Hcalls1).
  destruct (Hrefused (_execute_entity_processors [P1; P2] fresh).1 eq_refl)
    as (Hraise & _).
  destruct (Hraise (OtherException "no plan") eq_refl) as (Hout2 & Hcalls2).
  destruct (Hbuilt (_execute_entity_processors [P1; P2] fresh).1 eq_refl)
    as (_ & Hplan).
  destruct (Hplan _ eq_refl) as (_ & Hall).
  destruct (Hall eq_refl) as (Hout3 & Hcalls3).
  split; [ exact Hout1 | ]. split; [ exact Hcalls1 | ].
  split; [ exact Hout2 | ]. split; [ exact Hcalls2 | ].
  split; [ exact Hout3 | exact Hcalls3 ].
Defined.

End SamplePipelineMoreRuns.
